(** * vidcamp: the trend parser, the trend aggregator and the service methods

    A shallow embedding of [src/main.py] (class [TrendInfusedScriptService])
    and the properties its specification states about it.

    Conventions of the embedding.
    - A Python [str] is a [string] of characters in the ASCII range; the
      character-level built-ins ([str.upper], [str.strip], the class [\d] of
      [re]) are written out for that range.  [str.lower], through which
      the aggregator compares trends, is kept as a parameter of the service
      methods, so that the aggregator results hold for any lowering
      function.
    - Values that come from outside (the payloads of the search API, the JSON
      an LLM answers) are dynamically typed: they are [pyval]s, and an
      operation applied to the wrong kind of value raises.
    - A method that calls the outside world is a tree of type [py]: a leaf is
      a returned value or a raised exception, a node is one external call
      with the continuation that receives its outcome. *)

From Stdlib Require Import Ascii String ZArith QArith.
From stdpp Require Import base option list gmap strings fin_maps.

Local Open Scope nat_scope.

(** ** Strings *)

Module Str.

Definition LF : ascii := "010"%char.

Definition code (c : ascii) : nat := nat_of_ascii c.

Definition is_digit (c : ascii) : bool :=
  (48 <=? code c) && (code c <=? 57).

Definition is_lower (c : ascii) : bool :=
  (97 <=? code c) && (code c <=? 122).

Definition is_upper (c : ascii) : bool :=
  (65 <=? code c) && (code c <=? 90).

(** [str.isspace] on one character: TAB, LF, VT, FF, CR, the four
    separators FS, GS, RS, US, and the space. *)
Definition is_space (c : ascii) : bool :=
  ((9 <=? code c) && (code c <=? 13))
  || ((28 <=? code c) && (code c <=? 31))
  || (code c =? 32).

Definition upper_char (c : ascii) : ascii :=
  if is_lower c then ascii_of_nat (code c - 32) else c.

Definition lower_char (c : ascii) : ascii :=
  if is_upper c then ascii_of_nat (code c + 32) else c.

Fixpoint map (f : ascii → ascii) (s : string) : string :=
  match s with
  | "" => ""
  | String c s' => String (f c) (map f s')
  end.

(** [s.upper()] and [s.lower()]. *)
Definition upper : string → string := map upper_char.
Definition lower : string → string := map lower_char.

Fixpoint lstrip (s : string) : string :=
  match s with
  | "" => ""
  | String c s' => if is_space c then lstrip s' else s
  end.

Definition rstrip (s : string) : string :=
  String.rev (lstrip (String.rev s)).

(** [s.strip()]. *)
Definition strip (s : string) : string := rstrip (lstrip s).

(** [s] without the literal prefix [p], when it starts with it. *)
Fixpoint strip_prefix (p s : string) : option string :=
  match p, s with
  | "", _ => Some s
  | String a p', String b s' =>
      if bool_decide (a = b) then strip_prefix p' s' else None
  | String _ _, "" => None
  end.

(** [sub in s]. *)
Fixpoint contains (sub s : string) : bool :=
  match strip_prefix sub s with
  | Some _ => true
  | None =>
      match s with
      | "" => false
      | String _ s' => contains sub s'
      end
  end.

(** [sep.join(l)]. *)
Fixpoint join (sep : string) (l : list string) : string :=
  match l with
  | [] => ""
  | [s] => s
  | s :: l' => s +:+ sep +:+ join sep l'
  end.

(** The characters of a string, as iterating over it yields them. *)
Fixpoint chars (s : string) : list string :=
  match s with
  | "" => []
  | String c s' => String c "" :: chars s'
  end.

End Str.

(** ** Regular expressions

    The two patterns of the source use literal characters and strings, the
    class [\d], sequence, alternation, [?], [+] on a single-character atom
    and [$].  The matcher is a backtracking one with the priorities of
    [re]: the left branch of an alternation first, greedy [?] and [+]. *)

Module Re.

Inductive atom : Type :=
| Chr (c : ascii)
| Digit.

Inductive regex : Type :=
| One (a : atom)
| Lit (s : string)
| Seq (r1 r2 : regex)
| Alt (r1 r2 : regex)
| Opt (r : regex)
| Plus (a : atom)
| Eol.

Definition atom_ok (a : atom) (c : ascii) : bool :=
  match a with
  | Chr c' => bool_decide (c = c')
  | Digit => Str.is_digit c
  end.

(** [$] without MULTILINE: the end of the text, or just before a newline
    that ends the text. *)
Definition at_end (s : string) : bool :=
  match s with
  | "" => true
  | String c "" => bool_decide (c = Str.LF)
  | _ => false
  end.

(** One or more [a], as many as possible first; a repetition is given
    back when the continuation [k] fails on what follows. *)
Fixpoint repeat_atom (a : atom) (s : string) (k : string → option string)
    : option string :=
  match s with
  | String c s' =>
      if atom_ok a c then
        match repeat_atom a s' k with
        | Some rest => Some rest
        | None => k s'
        end
      else None
  | "" => None
  end.

(** [matches r s k]: match [r] at the start of [s], then [k] on what
    follows; the result is what [k] returns on the first path that
    succeeds. *)
Fixpoint matches (r : regex) (s : string) (k : string → option string)
    : option string :=
  match r with
  | One a =>
      match s with
      | String c s' => if atom_ok a c then k s' else None
      | "" => None
      end
  | Lit p =>
      match Str.strip_prefix p s with
      | Some s' => k s'
      | None => None
      end
  | Seq r1 r2 => matches r1 s (λ s', matches r2 s' k)
  | Alt r1 r2 =>
      match matches r1 s k with
      | Some rest => Some rest
      | None => matches r2 s k
      end
  | Opt r1 =>
      match matches r1 s k with
      | Some rest => Some rest
      | None => k s
      end
  | Plus a => repeat_atom a s k
  | Eol => if at_end s then k s else None
  end.

(** The text left after a match of [r] at the start of [s]. *)
Definition match_here (r : regex) (s : string) : option string :=
  matches r s Some.

(** [re.sub(r, repl, s)] for a pattern that matches no empty text (both
    patterns of the source start with a literal): the text is scanned from
    the left, a match is replaced by [repl] and the scan goes on after it.
    [skip] counts the characters of the current match still to pass. *)
Fixpoint sub_scan (r : regex) (repl : string) (skip : nat) (s : string)
    : string :=
  match skip with
  | S n =>
      match s with
      | String _ s' => sub_scan r repl n s'
      | "" => ""
      end
  | 0 =>
      match s with
      | "" => ""
      | String c s' =>
          match match_here r s with
          | Some rest =>
              match String.length s - String.length rest with
              | S n => repl +:+ sub_scan r repl n s'
              | 0 => String c (sub_scan r repl 0 s')
              end
          | None => String c (sub_scan r repl 0 s')
          end
      end
  end.

Definition sub (r : regex) (repl s : string) : string :=
  sub_scan r repl 0 s.

End Re.

Import Re.

(** [r',(\+?\d+%?|Breakout)$'] *)
Definition value_suffix : regex :=
  Seq (One (Chr ","%char))
      (Seq (Alt (Seq (Opt (One (Chr "+"%char)))
                     (Seq (Plus Digit) (Opt (One (Chr "%"%char)))))
                (Lit "Breakout"))
           Eol).

(** [r'```json\n?|```'] *)
Definition code_fence : regex :=
  Alt (Seq (Lit "```json") (Opt (One (Chr Str.LF)))) (Lit "```").

(** ** Dynamically typed values and exceptions *)

(** A value decoded from JSON.  A [PDict] lists the items of a dictionary in
    insertion order, which is the order [.items()] yields them in; its keys
    are distinct. *)
#[warnings="-register-all"] Inductive pyval : Type :=
| PNone
| PBool (b : bool)
| PInt (z : Z)
| PFloat (q : Q)
| PStr (s : string)
| PList (l : list pyval)
| PDict (d : list (string * pyval)).

(** An exception: a built-in one, with the name of its class and its
    [str(e)], or FastAPI's [HTTPException]. *)
Inductive exn : Type :=
| PyErr (cls msg : string)
| HTTPException (status_code : Z) (detail : string).

Definition type_name (v : pyval) : string :=
  match v with
  | PNone => "NoneType"
  | PBool _ => "bool"
  | PInt _ => "int"
  | PFloat _ => "float"
  | PStr _ => "str"
  | PList _ => "list"
  | PDict _ => "dict"
  end.

(** [bool(v)], as [if v] and [not v] use it. *)
Definition truthy (v : pyval) : bool :=
  match v with
  | PNone => false
  | PBool b => b
  | PInt z => negb (z =? 0)%Z
  | PFloat q => negb (Qeq_bool q 0)
  | PStr s => negb (bool_decide (s = ""))
  | PList l => negb (bool_decide (length l = 0))
  | PDict d => negb (bool_decide (length d = 0))
  end.

Definition AttributeError (v : pyval) (attr : string) : exn :=
  PyErr "AttributeError"
        ("'" +:+ type_name v +:+ "' object has no attribute '" +:+ attr +:+ "'").

Definition TypeError_not_iterable (v : pyval) : exn :=
  PyErr "TypeError" ("'" +:+ type_name v +:+ "' object is not iterable").

Definition KeyError (key : string) : exn :=
  PyErr "KeyError" ("'" +:+ key +:+ "'").

Definition ValueError (msg : string) : exn := PyErr "ValueError" msg.

(** [str(e)]. *)
Definition str_exn (e : exn) : string :=
  match e with
  | PyErr _ msg => msg
  | HTTPException status_code detail =>
      pretty.pretty status_code +:+ ": " +:+ detail
  end.

(** [key in d] and [d.get(key, default)] on the items of a dictionary. *)
Fixpoint dict_has (key : string) (d : list (string * pyval)) : bool :=
  match d with
  | [] => false
  | (k, _) :: d' => bool_decide (k = key) || dict_has key d'
  end.

Fixpoint dict_get (key : string) (default : pyval) (d : list (string * pyval))
    : pyval :=
  match d with
  | [] => default
  | (k, v) :: d' => if bool_decide (k = key) then v else dict_get key default d'
  end.

(** ** Computations

    The two models of [__init__] ([self.utility_model] and
    [self.creative_model]) and the search client are the outside world.  A
    call to it either raises or answers: [generate_content(prompt)] followed
    by [.text] answers a text, [GoogleSearch(params).get_dict()] a
    dictionary. *)

Inductive model_handle : Type := utility_model | creative_model.

Inductive py (A : Type) : Type :=
| Ret (a : A)
| Raise (e : exn)
| GenerateContent (m : model_handle) (prompt : string)
                  (k : exn + string → py A)
| GetDict (params : list (string * string))
          (k : exn + list (string * pyval) → py A).

Arguments Ret {A} a.
Arguments Raise {A} e.
Arguments GenerateContent {A} m prompt k.
Arguments GetDict {A} params k.

Fixpoint bind {A B : Type} (c : py A) (f : A → py B) : py B :=
  match c with
  | Ret a => f a
  | Raise e => Raise e
  | GenerateContent m prompt k => GenerateContent m prompt (λ r, bind (k r) f)
  | GetDict params k => GetDict params (λ r, bind (k r) f)
  end.

#[export] Instance py_ret : MRet py := @Ret.
#[export] Instance py_bind : MBind py := λ A B f c, bind c f.

(** [try: body / except <classes> as e: handler(e)]; [catches] tells the
    exceptions the clause is for. *)
Fixpoint try_except {A : Type} (body : py A) (catches : exn → bool)
    (handler : exn → py A) : py A :=
  match body with
  | Ret a => Ret a
  | Raise e => if catches e then handler e else Raise e
  | GenerateContent m prompt k =>
      GenerateContent m prompt (λ r, try_except (k r) catches handler)
  | GetDict params k =>
      GetDict params (λ r, try_except (k r) catches handler)
  end.

(** [except Exception]: every exception of the model is one. *)
Definition Exception (e : exn) : bool := true.

(** [except (C1, C2, ...)], by the name of the class. *)
Definition one_of (classes : list string) (e : exn) : bool :=
  match e with
  | PyErr cls _ => bool_decide (cls ∈ classes)
  | HTTPException _ _ => false
  end.

Definition of_outcome {A : Type} (r : exn + A) : py A :=
  match r with
  | inl e => Raise e
  | inr a => Ret a
  end.

(** [model.generate_content(prompt).text] *)
Definition generate_content (m : model_handle) (prompt : string) : py string :=
  GenerateContent m prompt of_outcome.

(** [GoogleSearch(params).get_dict()] *)
Definition get_dict (params : list (string * string))
    : py (list (string * pyval)) :=
  GetDict params of_outcome.

(** [for x in l: st = body(st, x)], stopping at the first exception. *)
Fixpoint for_each {S A : Type} (body : S → A → py S) (st : S) (l : list A)
    : py S :=
  match l with
  | [] => Ret st
  | x :: l' => st' ← body st x; for_each body st' l'
  end.

(** [v.get(key, default)]: only a dictionary has the method. *)
Definition py_get (v : pyval) (key : string) (default : pyval) : py pyval :=
  match v with
  | PDict d => Ret (dict_get key default d)
  | _ => Raise (AttributeError v "get")
  end.

(** [for row in v]: a list yields its elements, a string its characters, a
    dictionary its keys; nothing else of [pyval] is iterable. *)
Definition py_iter (v : pyval) : py (list pyval) :=
  match v with
  | PList l => Ret l
  | PStr s => Ret (PStr <$> Str.chars s)
  | PDict d => Ret ((λ kv, PStr kv.1) <$> d)
  | _ => Raise (TypeError_not_iterable v)
  end.

(** *** Running a computation

    A [world] answers the external calls; it is told the calls made so far,
    so that it may answer the same request differently the second time.
    [run] returns the calls made, in order, and the outcome. *)

Inductive call : Type :=
| LLMCall (m : model_handle) (prompt : string)
| SearchCall (params : list (string * string)).

Record world : Type := {
  llm : list call → model_handle → string → exn + string;
  serp : list call → list (string * string) → exn + list (string * pyval)
}.

Fixpoint run {A : Type} (w : world) (log : list call) (c : py A)
    : list call * (exn + A) :=
  match c with
  | Ret a => (log, inr a)
  | Raise e => (log, inl e)
  | GenerateContent m prompt k =>
      run w (log ++ [LLMCall m prompt]) (k (llm w log m prompt))
  | GetDict params k =>
      run w (log ++ [SearchCall params]) (k (serp w log params))
  end.

(** ** The trend parser *)

Definition empty_trends : gmap string (list string) :=
  {[ "top" := []; "rising" := [] ]}.

(** What a data line contributes:
    [re.sub(r',(\+?\d+%?|Breakout)$', '', row).strip()]. *)
Definition topic_of (row : string) : string :=
  Str.strip (Re.sub value_suffix "" row).

(** The body of the loop of [_parse_related_topics_csv], on the pair of
    [trends] and [current_section]. *)
Definition parse_row (st : gmap string (list string) * option string)
    (row : pyval) : py (gmap string (list string) * option string) :=
  let '(trends, current_section) := st in
  if negb (truthy row) then Ret st
  else
    match row with
    | PStr row =>
        if bool_decide (Str.upper row = "TOP") then Ret (trends, Some "top")
        else if bool_decide (Str.upper row = "RISING") then
          Ret (trends, Some "rising")
        else if Str.contains ":" row then Ret st
        else
          match current_section with
          | None => Ret st
          | Some section =>
              if bool_decide (section = "") then Ret st
              else
                try_except
                  (let topic := topic_of row in
                   if negb (bool_decide (topic = "")) then
                     match trends !! section with
                     | Some topics =>
                         Ret (<[section := topics ++ [topic]]> trends,
                              current_section)
                     | None => Raise (KeyError section)
                     end
                   else Ret st)
                  (one_of ["IndexError"; "ValueError"])
                  (λ _, Ret st)
          end
    | _ => Raise (AttributeError row "upper")
    end.

Definition _parse_related_topics_csv (csv_data : pyval)
    : py (gmap string (list string)) :=
  if negb (truthy csv_data) then Ret empty_trends
  else
    rows ← py_iter csv_data;
    st ← for_each parse_row (empty_trends, None) rows;
    Ret st.1.

(** A sequence of text lines, as the search API delivers them. *)
Definition lines (l : list string) : pyval := PList (PStr <$> l).

(** ** The service methods *)

(** The response model of the pipeline endpoint, as the endpoint fills it:
    [trends_data] pairs the category trends and the global trends. *)
Record FullPipelineResponse : Type := {
  resp_original_idea : string;
  resp_keyword : string;
  resp_viral_angle : pyval;
  resp_selected_trends : pyval;
  resp_script : string;
  resp_trends_data : gmap string (list string) * list pyval
}.

Section Service.

(** [str.lower]; the aggregator compares trends through it and nothing
    below depends on what it computes. *)
Variable lower : string → string.

(** [json.loads], which raises on a text that is not JSON. *)
Variable json_loads : string → exn + pyval.

(** The three prompt templates (the f-strings of [extract_keyword],
    [generate_viral_angle] and [generate_script]) as functions of the
    texts they interpolate. *)
Variable keyword_prompt : string → string.
Variable viral_angle_prompt : string → string → string.
Variable script_prompt : string → string.

(** [self.serpapi_api_key] *)
Variable serpapi_api_key : string.

Definition http_500 {A : Type} (what : string) (e : exn) : py A :=
  Raise (HTTPException 500 (what +:+ str_exn e)).

(** *** extract_keyword *)

Definition extract_keyword (video_idea : string) : py string :=
  try_except
    (text ← generate_content utility_model (keyword_prompt video_idea);
     let keyword := lower (Str.strip text) in
     if bool_decide (keyword = "") || (50 <? String.length keyword) then
       Raise (ValueError "Invalid keyword returned")
     else Ret keyword)
    Exception
    (http_500 "Failed to extract keyword: ").

(** *** fetch_trends *)

Definition params_cat (keyword category_id : string)
    : list (string * string) :=
  [("engine", "google_trends"); ("q", keyword); ("cat", category_id);
   ("data_type", "RELATED_TOPICS"); ("date", "today 1-m");
   ("gprop", "youtube"); ("csv", "true"); ("api_key", serpapi_api_key)].

Definition params_global : list (string * string) :=
  [("engine", "google_trends_trending_now"); ("api_key", serpapi_api_key)].

(** The first value of the payload that is a non-empty list whose first
    element is a dictionary with a ['title']; the empty list when there is
    none. *)
Fixpoint trending_searches (items : list (string * pyval)) : list pyval :=
  match items with
  | [] => []
  | (_, value) :: items' =>
      match value with
      | PList (PDict first :: rest) =>
          if dict_has "title" first then PDict first :: rest
          else trending_searches items'
      | _ => trending_searches items'
      end
  end.

(** [t.get('title', {}).get('query')] *)
Definition title_query (t : pyval) : py pyval :=
  title ← py_get t "title" (PDict []);
  py_get title "query" PNone.

(** [[title_query(t) for t in searches if title_query(t)]] *)
Fixpoint queries (searches : list pyval) : py (list pyval) :=
  match searches with
  | [] => Ret []
  | t :: searches' =>
      keep ← title_query t;
      if truthy keep then
        query ← title_query t;
        rest ← queries searches';
        Ret (query :: rest)
      else queries searches'
  end.

(** The category half of [fetch_trends]: what is made of the answer of
    the category-specific query. *)
Definition category_trends_of (results_cat : list (string * pyval))
    : py (gmap string (list string)) :=
  if negb (dict_has "error" results_cat) then
    _parse_related_topics_csv (dict_get "csv" (PList []) results_cat)
  else Ret empty_trends.

(** The global half: what is made of the answer of the global query. *)
Definition global_trends_of (results_global : list (string * pyval))
    : py (list pyval) :=
  if negb (dict_has "error" results_global) then
    let searches := trending_searches results_global in
    if truthy (PList searches) then queries searches else Ret []
  else Ret [].

Definition fetch_trends (keyword category_id : string)
    : py (gmap string (list string) * list pyval) :=
  try_except
    (results_cat ← get_dict (params_cat keyword category_id);
     category_trends ← category_trends_of results_cat;
     results_global ← get_dict params_global;
     global_trends ← global_trends_of results_global;
     Ret (category_trends, global_trends))
    Exception
    (http_500 "Failed to fetch trends: ").

(** *** generate_viral_angle *)

(** The body of the inner loop of the merge, on the pair of [merged] and
    [seen]. *)
Definition merge_trend (st : list string * gset string) (trend : string)
    : list string * gset string :=
  let '(merged, seen) := st in
  if decide (lower trend ∉ seen) then
    (merged ++ [trend], seen ∪ {[lower trend]})
  else st.

Definition merge_section (st : list string * gset string)
    (section : list string) : list string * gset string :=
  foldl merge_trend st section.

Definition merge_sections (sections : list (list string))
    : list string * gset string :=
  foldl merge_section ([], ∅) sections.

(** [category_trends.get(key, [])] *)
Definition section_of (category_trends : gmap string (list string))
    (key : string) : list string :=
  default [] (category_trends !! key).

(** The three sources, in the order the merge visits them. *)
Definition sources (category_trends : gmap string (list string))
    (global_trends : list string) : list (list string) :=
  [section_of category_trends "rising"; section_of category_trends "top";
   global_trends].

(** [merged[:25]] after the merge: the trend aggregation step. *)
Definition trend_candidates (category_trends : gmap string (list string))
    (global_trends : list string) : list string :=
  take 25 (merge_sections (sources category_trends global_trends)).1.

Definition dq : string := String (ascii_of_nat 34) "".

(** ["\n".join(f'- "{trend}"' for trend in trend_candidates)] *)
Definition trend_list_str (candidates : list string) : string :=
  Str.join (String Str.LF "")
           ((λ trend, "- " +:+ dq +:+ trend +:+ dq) <$> candidates).

Definition is_list (v : pyval) : bool :=
  match v with
  | PList _ => true
  | _ => false
  end.

Definition generate_viral_angle (original_idea : string)
    (category_trends : gmap string (list string))
    (global_trends : list string) : py (pyval * pyval) :=
  let candidates := trend_candidates category_trends global_trends in
  if bool_decide (candidates = []) then Ret (PStr original_idea, PList [])
  else
    let prompt :=
      viral_angle_prompt original_idea (trend_list_str candidates) in
    try_except
      (text ← generate_content utility_model prompt;
       let cleaned_text := Re.sub code_fence "" (Str.strip text) in
       result_json ← of_outcome (json_loads cleaned_text);
       viral_angle ← py_get result_json "viral_angle" PNone;
       selected_trends ← py_get result_json "selected_trends" (PList []);
       if negb (truthy viral_angle) || negb (is_list selected_trends) then
         Raise (ValueError "AI response missing required keys")
       else Ret (viral_angle, selected_trends))
      Exception
      (http_500 "Failed to generate viral angle: ").

(** *** generate_script *)

Definition generate_script (viral_angle : string) : py string :=
  try_except
    (text ← generate_content creative_model (script_prompt viral_angle);
     Ret (Str.strip text))
    Exception
    (http_500 "Failed to generate script: ").

(** *** full_pipeline *)

(** [str(v)] for a value that is no string, as an f-string interpolates
    it. *)
Variable str_of_value : pyval → string.

(** The construction of the response model by pydantic, which validates
    the fields: it gives the model, or the message of the ValidationError it
    raises when a field does not fit. *)
Variable validate_response :
  FullPipelineResponse → string + FullPipelineResponse.

Definition validated (r : string + FullPipelineResponse)
    : py FullPipelineResponse :=
  match r with
  | inl msg => Raise (PyErr "ValidationError" msg)
  | inr response => Ret response
  end.

(** [f"{v}"] *)
Definition format_value (v : pyval) : string :=
  match v with
  | PStr s => s
  | _ => str_of_value v
  end.

(** The trends of a list that came from outside, as the merge of
    [generate_viral_angle] reads them: [trend.lower()] raises on the first
    that is no string. *)
Fixpoint as_trends (l : list pyval) : py (list string) :=
  match l with
  | [] => Ret []
  | PStr trend :: l' => rest ← as_trends l'; Ret (trend :: rest)
  | v :: _ => Raise (AttributeError v "lower")
  end.

(** [except HTTPException: raise] before [except Exception]: the second
    clause is for what is no [HTTPException]. *)
Definition not_HTTPException (e : exn) : bool :=
  match e with
  | HTTPException _ _ => false
  | PyErr _ _ => true
  end.

Definition full_pipeline (video_idea category_id : string)
    : py FullPipelineResponse :=
  try_except
    (keyword ← extract_keyword video_idea;
     trends ← fetch_trends keyword category_id;
     global_trends ← as_trends trends.2;
     angle ← generate_viral_angle video_idea trends.1 global_trends;
     script ← generate_script (format_value angle.1);
     validated
       (validate_response
          {| resp_original_idea := video_idea;
             resp_keyword := keyword;
             resp_viral_angle := angle.1;
             resp_selected_trends := angle.2;
             resp_script := script;
             resp_trends_data := trends |}))
    not_HTTPException
    (http_500 "Pipeline failed: ").

(** ** Notions the properties are stated with *)

(** The position of the first element of [l] equal to [x]. *)
Fixpoint first_occurrence (x : string) (l : list string) : option nat :=
  match l with
  | [] => None
  | y :: l' =>
      if decide (y = x) then Some 0 else S <$> first_occurrence x l'
  end.

(** The merge loop run over one flat list. *)
Definition merged_of (src : list string) : list string * gset string :=
  foldl merge_trend ([], ∅) src.

End Service.

(** A computation that calls nothing: a returned value or an exception. *)
Definition leaf {A : Type} (c : py A) : Prop :=
  match c with
  | Ret _ | Raise _ => True
  | _ => False
  end.

(** The two calls of [fetch_trends], as [run] logs them. *)
Definition category_call (api_key keyword category_id : string) : call :=
  SearchCall (params_cat api_key keyword category_id).

Definition global_call (api_key : string) : call :=
  SearchCall (params_global api_key).

(** What [fetch_trends] and [generate_script] raise. *)
Definition fetch_failure (e : exn) : exn :=
  HTTPException 500 ("Failed to fetch trends: " +:+ str_exn e).

Definition script_failure (e : exn) : exn :=
  HTTPException 500 ("Failed to generate script: " +:+ str_exn e).

(** Worlds and inputs the concrete statements use. *)

Definition blank_world : world :=
  {| llm := λ _ _ _, inr "   "; serp := λ _ _, inr [] |}.

Definition category_down_world : world :=
  {| llm := λ _ _ _, inr "";
     serp := λ _ params,
       if bool_decide (params !! 0 = Some ("engine", "google_trends"))
       then inl (PyErr "ConnectionError" "connection refused")
       else inr [("trending_searches",
                  PList [PDict [("title", PDict [("query", PStr "Autumn")])]])]
  |}.

Definition category_error_world : world :=
  {| llm := λ _ _ _, inr "";
     serp := λ _ params,
       if bool_decide (params !! 0 = Some ("engine", "google_trends"))
       then inr [("error", PStr "Google Trends hasn't returned any results.")]
       else inr [("trending_searches",
                  PList [PDict [("title", PDict [("query", PStr "Autumn")])]])]
  |}.

Definition scenario_B_category : gmap string (list string) :=
  {[ "rising" := ["Dalgona coffee"]; "top" := ["Coffee"; "dalgona coffee"] ]}.

Definition scenario_B_global : list string := ["Autumn"].

(** How a run goes on after a first part: with [f] on a returned value,
    with the handler on an exception the clause is for. *)
Definition then_run {A B : Type} (w : world) (f : A → py B)
    (r : list call * (exn + A)) : list call * (exn + B) :=
  match r with
  | (log, inr a) => run w log (f a)
  | (log, inl e) => (log, inl e)
  end.

Definition handle_run {A : Type} (w : world) (catches : exn → bool)
    (handler : exn → py A) (r : list call * (exn + A))
    : list call * (exn + A) :=
  match r with
  | (log, inl e) => if catches e then run w log (handler e) else (log, inl e)
  | (log, inr a) => (log, inr a)
  end.

(** An outcome that is a value or a terminal error of status 500 whose
    detail starts with [what]. *)
Definition value_or_500 {A : Type} (what : string) (r : exn + A) : Prop :=
  match r with
  | inr _ => True
  | inl e => ∃ msg, e = HTTPException 500 (what +:+ msg)
  end.

(** A header line of the export, in any case. *)
Definition is_header (row : string) : bool :=
  bool_decide (Str.upper row = "TOP") || bool_decide (Str.upper row = "RISING").

(** A line that the parser reads as data: not empty, no header, no colon. *)
Definition is_data_line (row : string) : bool :=
  negb (bool_decide (row = "")) && negb (is_header row)
  && negb (Str.contains ":" row).


(** The values [current_section] takes. *)
Definition good_section (current_section : option string) : Prop :=
  current_section = None ∨ current_section = Some "top"
  ∨ current_section = Some "rising".

(** A topic that a data line of [rows] gave. *)
Definition from_rows (rows : list string) (topic : string) : Prop :=
  topic ≠ ""
  ∧ ∃ row, row ∈ rows ∧ is_data_line row = true ∧ topic = topic_of row.

Fixpoint all_digits (s : string) : bool :=
  match s with
  | "" => true
  | String c s' => Str.is_digit c && all_digits s'
  end.

(** The character [c] occurs in [s]. *)
Fixpoint has_char (c : ascii) (s : string) : bool :=
  match s with
  | "" => false
  | String c' s' => bool_decide (c' = c) || has_char c s'
  end.

(** Every character of [s] is one that [a] accepts. *)
Fixpoint all_ok (a : atom) (s : string) : bool :=
  match s with
  | "" => true
  | String c s' => atom_ok a c && all_ok a s'
  end.

(** [denotes r m rest]: the text [m], followed by [rest], is one that the
    pattern [r] describes. *)
Fixpoint denotes (r : regex) (m rest : string) : Prop :=
  match r with
  | One a => ∃ c, m = String c "" ∧ atom_ok a c = true
  | Lit p => m = p
  | Seq r1 r2 =>
      ∃ m1 m2, m = m1 +:+ m2 ∧ denotes r1 m1 (m2 +:+ rest) ∧ denotes r2 m2 rest
  | Alt r1 r2 => denotes r1 m rest ∨ denotes r2 m rest
  | Opt r1 => m = "" ∨ denotes r1 m rest
  | Plus a => m ≠ "" ∧ all_ok a m = true
  | Eol => m = "" ∧ at_end rest = true
  end.

(** An entry of the trending list of the expected shape, with its query. *)
Definition trending_entry (query : pyval) : pyval :=
  PDict [("title", PDict [("query", query)])].


Definition malformed_world : world :=
  {| llm := λ _ _ _, inr "";
     serp := λ _ params,
       if bool_decide (params !! 0 = Some ("engine", "google_trends"))
       then inr []
       else inr [("trending_searches",
                  PList [trending_entry (PStr "Autumn"); PStr "Winter"])]
  |}.

Definition quiet_world : world :=
  {| llm := λ _ _ _, inr "coffee"; serp := λ _ _, inr [] |}.

Definition numeric_world : world :=
  {| llm := λ _ _ _, inr "coffee";
     serp := λ _ _, inr [("trending_searches",
                          PList [trending_entry (PInt 7)])] |}.

(** The phases of the pipeline, as its terminal errors name them. *)
Definition phases : list string :=
  ["Failed to extract keyword: "; "Failed to fetch trends: ";
   "Failed to generate viral angle: "; "Failed to generate script: ";
   "Pipeline failed: "].

(** An outcome that is a value or a terminal error of status 500 that names
    a phase. *)
Definition value_or_phase_error {A : Type} (r : exn + A) : Prop :=
  match r with
  | inr _ => True
  | inl e => ∃ phase msg, phase ∈ phases ∧ e = HTTPException 500 (phase +:+ msg)
  end.

(** ** Facts about the merge *)

Section MergeFacts.

Variable lower : string → string.

Lemma first_occurrence_elem x l :
  x ∈ l → is_Some (first_occurrence x l).
Proof.
  induction l as [|y l IH]; intros Hx; [by apply elem_of_nil in Hx|].
  simpl. destruct (decide (y = x)); [by eexists|].
  apply elem_of_cons in Hx as [->|Hx]; [done|].
  destruct (IH Hx) as [p ->]. by eexists.
Qed.

Lemma first_occurrence_lt x l p :
  first_occurrence x l = Some p → p < length l.
Proof.
  revert p. induction l as [|y l IH]; intros p; simpl; [done|].
  destruct (decide (y = x)); [intros [= <-]; lia|].
  destruct (first_occurrence x l) as [q|]; simpl; [|done].
  intros [= <-]. specialize (IH q eq_refl). lia.
Qed.

Lemma first_occurrence_app_l x l l' p :
  first_occurrence x l = Some p → first_occurrence x (l ++ l') = Some p.
Proof.
  revert p. induction l as [|y l IH]; intros p; simpl; [done|].
  destruct (decide (y = x)); [done|].
  destruct (first_occurrence x l) as [q|]; simpl; [|done].
  intros [= <-]. by rewrite (IH q eq_refl).
Qed.

Lemma first_occurrence_fresh x l :
  x ∉ l → first_occurrence x (l ++ [x]) = Some (length l).
Proof.
  induction l as [|y l IH]; intros Hx; simpl.
  - by rewrite decide_True.
  - apply not_elem_of_cons in Hx as [Hne Hx].
    rewrite decide_False; [|done]. by rewrite (IH Hx).
Qed.

(** The nested loops visit the concatenation of the sections. *)
Lemma merge_sections_concat st sections :
  foldl (merge_section lower) st sections
  = foldl (merge_trend lower) st (concat sections).
Proof.
  revert st. induction sections as [|s ss IH]; intros st; simpl; [done|].
  rewrite IH. unfold merge_section. by rewrite foldl_app.
Qed.

Lemma merge_sources category_trends global_trends :
  merge_sections lower (sources category_trends global_trends)
  = merged_of lower (section_of category_trends "rising"
                     ++ section_of category_trends "top" ++ global_trends).
Proof.
  unfold merge_sections, sources. rewrite merge_sections_concat.
  simpl. by rewrite app_nil_r.
Qed.

Lemma merged_of_snoc src x :
  merged_of lower (src ++ [x]) = merge_trend lower (merged_of lower src) x.
Proof. unfold merged_of. by rewrite foldl_app. Qed.

(** [seen] holds the lowered form of what has been visited, and of what
    has been kept. *)
Lemma seen_spec src k :
  (k ∈ (merged_of lower src).2 ↔ k ∈ lower <$> src)
  ∧ (k ∈ (merged_of lower src).2 ↔ k ∈ lower <$> (merged_of lower src).1).
Proof.
  induction src as [|x src [IH1 IH2]] using rev_ind.
  - unfold merged_of; simpl. split; split; intros H;
      solve [ by apply elem_of_empty in H | by apply elem_of_nil in H ].
  - rewrite merged_of_snoc.
    destruct (merged_of lower src) as [merged seen] eqn:E.
    simpl in *. rewrite fmap_app; simpl.
    destruct (decide (lower x ∉ seen)) as [Hn|Hin]; simpl.
    + rewrite fmap_app; simpl. rewrite !elem_of_app, elem_of_union.
      rewrite IH1 at 1. rewrite IH2.
      rewrite elem_of_singleton, list_elem_of_singleton. tauto.
    + apply dec_stable in Hin. rewrite elem_of_app, list_elem_of_singleton.
      split; [|done]. split; [tauto|]. intros [H| ->]; [tauto|done].
Qed.

Lemma merged_of_fresh src x :
  lower x ∉ lower <$> src →
  (merged_of lower (src ++ [x])).1 = (merged_of lower src).1 ++ [x].
Proof.
  intros Hx. rewrite merged_of_snoc.
  pose proof (seen_spec src (lower x)) as [H1 _].
  destruct (merged_of lower src) as [merged seen]; simpl in *.
  rewrite decide_True; [done|]. by rewrite H1.
Qed.

Lemma merged_of_seen src x :
  lower x ∈ lower <$> src →
  (merged_of lower (src ++ [x])).1 = (merged_of lower src).1.
Proof.
  intros Hx. rewrite merged_of_snoc.
  pose proof (seen_spec src (lower x)) as [H1 _].
  destruct (merged_of lower src) as [merged seen]; simpl in *.
  rewrite decide_False; [done|]. rewrite H1. by intros [].
Qed.

(** What the loop keeps is its input with some elements left out. *)
Lemma merged_sublist src : (merged_of lower src).1 `sublist_of` src.
Proof.
  induction src as [|x src IH] using rev_ind; [done|].
  destruct (decide (lower x ∈ lower <$> src)) as [Hin|Hn].
  - rewrite merged_of_seen by done. by apply sublist_inserts_r.
  - rewrite merged_of_fresh by done. by apply sublist_app.
Qed.

Lemma merged_elem src x : x ∈ (merged_of lower src).1 → x ∈ src.
Proof. intros Hx. eapply elem_of_sublist; [done|apply merged_sublist]. Qed.

Lemma merged_NoDup src : NoDup (lower <$> (merged_of lower src).1).
Proof.
  induction src as [|x src IH] using rev_ind; [constructor|].
  destruct (decide (lower x ∈ lower <$> src)) as [Hin|Hn].
  - by rewrite merged_of_seen.
  - rewrite merged_of_fresh by done. rewrite fmap_app. simpl.
    apply NoDup_app. split; [done|]. split; [|apply NoDup_singleton].
    intros k Hk ->%list_elem_of_singleton. apply Hn.
    pose proof (seen_spec src (lower x)) as [H1 H2]. apply H1, H2, Hk.
Qed.

(** Two kept entries come in the order of their first occurrences. *)
Lemma merged_order src i j x y :
  i < j →
  (merged_of lower src).1 !! i = Some x →
  (merged_of lower src).1 !! j = Some y →
  ∃ p q, first_occurrence x src = Some p
         ∧ first_occurrence y src = Some q ∧ p < q.
Proof.
  revert i j x y. induction src as [|z src IH] using rev_ind;
    intros i j x y Hij Hx Hy; [done|].
  destruct (decide (lower z ∈ lower <$> src)) as [Hin|Hn].
  - rewrite merged_of_seen in Hx, Hy by done.
    destruct (IH i j x y Hij Hx Hy) as (p & q & Hp & Hq & Hpq).
    exists p, q. by rewrite !(first_occurrence_app_l _ _ _ _ Hp),
      !(first_occurrence_app_l _ _ _ _ Hq).
  - rewrite merged_of_fresh in Hx, Hy by done.
    destruct (decide (j < length (merged_of lower src).1)) as [Hj|Hj].
    + rewrite lookup_app_l in Hx, Hy by lia.
      destruct (IH i j x y Hij Hx Hy) as (p & q & Hp & Hq & Hpq).
      exists p, q. by rewrite !(first_occurrence_app_l _ _ _ _ Hp),
        !(first_occurrence_app_l _ _ _ _ Hq).
    + rewrite lookup_app_r in Hy by lia.
      assert (y = z) as ->.
      { destruct (j - length (merged_of lower src).1) as [|n];
          simpl in Hy; [by injection Hy|done]. }
      assert (i < length (merged_of lower src).1) as Hi.
      { apply lookup_lt_Some in Hx, Hy. rewrite length_app in *.
        simpl in *. lia. }
      rewrite lookup_app_l in Hx by done.
      assert (x ∈ src) as Hxs.
      { apply merged_elem. by eapply list_elem_of_lookup_2. }
      destruct (first_occurrence_elem x src Hxs) as [p Hp].
      exists p, (length src). split; [by apply first_occurrence_app_l|].
      split; [|by eapply first_occurrence_lt].
      apply first_occurrence_fresh. intros Hz. apply Hn.
      by apply list_elem_of_fmap_2.
Qed.

(** On a list without two entries of the same lowered form the loop keeps
    everything. *)
Lemma merged_NoDup_id src :
  NoDup (lower <$> src) → (merged_of lower src).1 = src.
Proof.
  induction src as [|x src IH] using rev_ind; intros Hnd; [done|].
  rewrite fmap_app in Hnd. apply NoDup_app in Hnd as (Hsrc & Hx & _).
  rewrite merged_of_fresh, IH; [done..|].
  intros Hin. apply (Hx _ Hin). simpl. apply list_elem_of_here.
Qed.

End MergeFacts.

(** ** Facts about the parser *)

Lemma upper_char_inv c d :
  Str.upper_char c = d → c = d ∨ c = Str.lower_char d.
Proof.
  intros <-. destruct c as [[] [] [] [] [] [] [] []]; vm_compute; auto.
Qed.

Lemma upper_nil_inv s : Str.upper s = "" → s = "".
Proof. by destruct s. Qed.

Lemma upper_cons_inv s d t :
  Str.upper s = String d t →
  ∃ c s', s = String c s' ∧ (c = d ∨ c = Str.lower_char d) ∧ Str.upper s' = t.
Proof.
  destruct s as [|c s']; [done|]. intros [= Hc Ht].
  exists c, s'. split; [done|]. split; [by apply upper_char_inv|done].
Qed.

Ltac upper_cases H :=
  repeat
    (let c := fresh "c" in
     let s := fresh "s" in
     let Hc := fresh "Hc" in
     apply upper_cons_inv in H as (c & s & -> & Hc & H));
  apply upper_nil_inv in H as ->.

(** A header line is not an empty topic. *)
Lemma header_topic row :
  Str.upper row = "TOP" ∨ Str.upper row = "RISING" → topic_of row ≠ "".
Proof.
  intros [H|H]; upper_cases H;
    repeat match goal with
           | Hc : _ ∨ _ |- _ => destruct Hc as [-> | ->]
           end; by vm_compute.
Qed.

Lemma contains_colon_cons c s :
  Str.contains ":" (String c s)
  = bool_decide (":"%char = c) || Str.contains ":" s.
Proof. simpl. by destruct (bool_decide (":"%char = c)). Qed.

Lemma contains_colon_upper row :
  Str.contains ":" row = true → Str.contains ":" (Str.upper row) = true.
Proof.
  induction row as [|c row IH]; [done|].
  change (Str.upper (String c row))
    with (String (Str.upper_char c) (Str.upper row)).
  rewrite !contains_colon_cons. intros [Hc|Hr]%orb_true_iff.
  - apply bool_decide_eq_true in Hc as <-. done.
  - rewrite (IH Hr). by rewrite orb_true_r.
Qed.

(** A line with a colon is no header. *)
Lemma colon_not_header row :
  Str.contains ":" row = true →
  Str.upper row ≠ "TOP" ∧ Str.upper row ≠ "RISING".
Proof.
  intros H%contains_colon_upper.
  split; intros E; rewrite E in H; by vm_compute in H.
Qed.

Lemma parse_row_colon st row :
  Str.contains ":" row = true → parse_row st (PStr row) = Ret st.
Proof.
  intros H. destruct (colon_not_header row H) as [Htop Hrising].
  destruct st as [trends current_section]. unfold parse_row.
  destruct row as [|c row]; [done|]. simpl truthy. simpl negb. cbv iota.
  rewrite !bool_decide_eq_false_2 by done. by rewrite H.
Qed.

Lemma parse_row_empty_topic st row :
  topic_of row = "" → parse_row st (PStr row) = Ret st.
Proof.
  intros H. destruct st as [trends current_section]. unfold parse_row.
  destruct (truthy (PStr row)); [|done]. simpl negb. cbv iota.
  pose proof (header_topic row) as Hh.
  rewrite !bool_decide_eq_false_2 by tauto.
  destruct (Str.contains ":" row); [done|].
  destruct current_section as [section|]; [|done].
  destruct (bool_decide (section = "")); [done|].
  rewrite H. done.
Qed.

Lemma parse_row_leaf st row : leaf (parse_row st row).
Proof.
  destruct st as [trends current_section]. unfold parse_row.
  destruct (truthy row); simpl; [|done].
  destruct row as [| | | |row| |]; try done.
  repeat (case_bool_decide; [done|]).
  destruct (Str.contains ":" row); [done|].
  destruct current_section as [section|]; [|done].
  case_bool_decide; [done|].
  case_bool_decide; simpl; [done|].
  by destruct (trends !! section).
Qed.

Lemma for_each_cons {S A : Type} (body : S → A → py S) st x l :
  for_each body st (x :: l) = (st' ← body st x; for_each body st' l).
Proof. done. Qed.

(** A line that leaves the state as it is can be taken out of the input. *)
Lemma for_each_skip st pre x post :
  (∀ st', parse_row st' x = Ret st') →
  for_each parse_row st (pre ++ x :: post)
  = for_each parse_row st (pre ++ post).
Proof.
  intros Hx. revert st. induction pre as [|y pre IH]; intros st; simpl.
  - by rewrite Hx.
  - pose proof (parse_row_leaf st y) as Hl.
    destruct (parse_row st y) as [st'| | |]; try done. simpl. apply IH.
Qed.

Lemma parse_skip pre x post :
  (∀ st, parse_row st x = Ret st) →
  _parse_related_topics_csv (PList (pre ++ x :: post))
  = _parse_related_topics_csv (PList (pre ++ post)).
Proof.
  intros Hx. unfold _parse_related_topics_csv.
  assert (truthy (PList (pre ++ x :: post)) = true) as ->.
  { simpl. rewrite length_app. simpl. rewrite bool_decide_eq_false_2; [done|lia]. }
  simpl negb. cbv iota. simpl py_iter.
  change (rows ← Ret (pre ++ x :: post);
          st ← for_each parse_row (empty_trends, None) rows; Ret st.1)
    with (st ← for_each parse_row (empty_trends, None) (pre ++ x :: post);
          Ret st.1).
  rewrite for_each_skip by done.
  by destruct (pre ++ post).
Qed.

Lemma for_each_leaf st rows : leaf (for_each parse_row st rows).
Proof.
  revert st. induction rows as [|y rows IH]; intros st; simpl; [done|].
  pose proof (parse_row_leaf st y) as Hl.
  destruct (parse_row st y) as [st'| | |]; try done. simpl. apply IH.
Qed.

(** ** Facts about the service methods *)

Lemma title_query_leaf t : leaf (title_query t).
Proof.
  destruct t as [| | | | | |d]; try done. unfold title_query. simpl.
  by destruct (dict_get "title" (PDict []) d).
Qed.

Lemma queries_leaf searches : leaf (queries searches).
Proof.
  induction searches as [|t searches IH]; [done|]. simpl.
  pose proof (title_query_leaf t) as Ht.
  destruct (title_query t) as [keep| | |]; try done. simpl.
  destruct (truthy keep); [|done]. simpl.
  by destruct (queries searches).
Qed.

Lemma parse_leaf csv_data : leaf (_parse_related_topics_csv csv_data).
Proof.
  unfold _parse_related_topics_csv.
  destruct (truthy csv_data); [|done]. simpl.
  assert (∀ rows, leaf (st ← for_each parse_row (empty_trends, None) rows;
                        Ret st.1)) as Hrows.
  { intros rows. pose proof (for_each_leaf (empty_trends, None) rows) as Hl.
    by destruct (for_each parse_row (empty_trends, None) rows). }
  destruct csv_data; try done; apply Hrows.
Qed.

Lemma category_trends_of_leaf results_cat :
  leaf (category_trends_of results_cat).
Proof.
  unfold category_trends_of.
  destruct (dict_has "error" results_cat); simpl; [done|apply parse_leaf].
Qed.

Lemma global_trends_of_leaf results_global :
  leaf (global_trends_of results_global).
Proof.
  unfold global_trends_of.
  destruct (dict_has "error" results_global); simpl; [done|].
  destruct (trending_searches results_global) as [|t searches]; [done|].
  apply queries_leaf.
Qed.

(** An error indicator empties the half it belongs to. *)
Lemma category_trends_of_error results_cat :
  dict_has "error" results_cat = true →
  category_trends_of results_cat = Ret empty_trends.
Proof. intros H. unfold category_trends_of. by rewrite H. Qed.

Lemma global_trends_of_error results_global :
  dict_has "error" results_global = true →
  global_trends_of results_global = Ret [].
Proof. intros H. unfold global_trends_of. by rewrite H. Qed.

Section FetchRuns.

Variable api_key : string.
Variables (w : world) (log : list call) (keyword category_id : string).

Lemma fetch_trends_category_raises e :
  serp w log (params_cat api_key keyword category_id) = inl e →
  run w log (fetch_trends api_key keyword category_id)
  = (log ++ [category_call api_key keyword category_id],
     inl (fetch_failure e)).
Proof. intros H. unfold fetch_trends. simpl. by rewrite H. Qed.

Lemma fetch_trends_global_raises d1 c e :
  serp w log (params_cat api_key keyword category_id) = inr d1 →
  category_trends_of d1 = Ret c →
  serp w (log ++ [category_call api_key keyword category_id])
       (params_global api_key) = inl e →
  run w log (fetch_trends api_key keyword category_id)
  = ((log ++ [category_call api_key keyword category_id])
     ++ [global_call api_key], inl (fetch_failure e)).
Proof.
  intros H1 Hc H2. unfold category_call, global_call in *.
  unfold fetch_trends. simpl. rewrite H1. simpl.
  rewrite Hc. simpl. by rewrite H2.
Qed.

Lemma fetch_trends_returns d1 c d2 g :
  serp w log (params_cat api_key keyword category_id) = inr d1 →
  category_trends_of d1 = Ret c →
  serp w (log ++ [category_call api_key keyword category_id])
       (params_global api_key) = inr d2 →
  global_trends_of d2 = Ret g →
  run w log (fetch_trends api_key keyword category_id)
  = ((log ++ [category_call api_key keyword category_id])
     ++ [global_call api_key], inr (c, g)).
Proof.
  intros H1 Hc H2 Hg. unfold category_call, global_call in *.
  unfold fetch_trends. simpl. rewrite H1. simpl.
  rewrite Hc. simpl. rewrite H2. simpl. by rewrite Hg.
Qed.

(** Whatever the world answers, the method returns or raises a terminal
    error: no other exception leaves it. *)
Lemma fetch_trends_terminal :
  ∃ log' r,
    run w log (fetch_trends api_key keyword category_id) = (log', r)
    ∧ match r with
      | inl e => ∃ detail, e = HTTPException 500 detail
      | inr _ => True
      end.
Proof.
  unfold fetch_trends. simpl.
  destruct (serp w log (params_cat api_key keyword category_id)) as [e|d1];
    simpl; [by repeat eexists|].
  pose proof (category_trends_of_leaf d1) as Hc.
  destruct (category_trends_of d1) as [c|e| |]; try done; simpl;
    [|by repeat eexists].
  destruct (serp w _ (params_global api_key)) as [e|d2];
    simpl; [by repeat eexists|].
  pose proof (global_trends_of_leaf d2) as Hg.
  destruct (global_trends_of d2) as [g|e| |]; try done; simpl;
    by repeat eexists.
Qed.

End FetchRuns.

(** ** The properties of the specification *)

(** Scenario B of the specification: the repeat of the rising trend that the
    top list holds in another case is left out. *)
Example scenario_B_candidates :
  trend_candidates Str.lower scenario_B_category scenario_B_global
  = ["Dalgona coffee"; "Coffee"; "Autumn"].
Proof. by vm_compute. Qed.

(** C1: whatever the three sources hold, the aggregation step of
    [generate_viral_angle] yields at most 25 candidates, no two of which are
    equal once lowered, and any two candidates stand in the order of their
    first occurrences in the sources taken as rising, then top, then
    global. *)
Theorem aggregation_cap_dedup_order (lower : string → string)
    (category_trends : gmap string (list string))
    (global_trends : list string) :
  length (trend_candidates lower category_trends global_trends) ≤ 25
  ∧ NoDup (lower <$> trend_candidates lower category_trends global_trends)
  ∧ ∀ i j x y,
      i < j →
      trend_candidates lower category_trends global_trends !! i = Some x →
      trend_candidates lower category_trends global_trends !! j = Some y →
      ∃ p q,
        first_occurrence x (section_of category_trends "rising"
                            ++ section_of category_trends "top"
                            ++ global_trends) = Some p
        ∧ first_occurrence y (section_of category_trends "rising"
                              ++ section_of category_trends "top"
                              ++ global_trends) = Some q
        ∧ p < q.
Proof.
  unfold trend_candidates. rewrite merge_sources.
  split; [|split].
  - rewrite length_take. lia.
  - rewrite fmap_take. eapply sublist_NoDup; [apply merged_NoDup|].
    apply sublist_take.
  - intros i j x y Hij [Hx _]%lookup_take_Some [Hy _]%lookup_take_Some.
    by eapply merged_order.
Qed.

Lemma aggregation_cap_dedup_order_witness :
  ∃ p q,
    first_occurrence "Dalgona coffee"
      (section_of scenario_B_category "rising"
       ++ section_of scenario_B_category "top" ++ scenario_B_global) = Some p
    ∧ first_occurrence "Coffee"
        (section_of scenario_B_category "rising"
         ++ section_of scenario_B_category "top" ++ scenario_B_global) = Some q
    ∧ p < q.
Proof.
  apply (proj2 (proj2 (aggregation_cap_dedup_order
                         Str.lower scenario_B_category scenario_B_global))
           0 1 "Dalgona coffee" "Coffee").
  - lia.
  - vm_compute. reflexivity.
  - vm_compute. reflexivity.
Defined.

(** C2: scenario A of the specification: the five lines parse to the top
    list Coffee, Tea and the rising list Matcha. *)
Theorem scenario_A_parse :
  _parse_related_topics_csv
    (lines ["TOP"; "Coffee,100"; "Tea,+20%"; "RISING"; "Matcha,Breakout"])
  = Ret {[ "top" := ["Coffee"; "Tea"]; "rising" := ["Matcha"] ]}.
Proof. vm_compute. reflexivity. Qed.

(** C3, as the specification states it, fails: under a header the line [,]
    is kept as the topic [,], so the parse with the line differs from the
    parse without it. *)
Lemma stray_comma_kept :
  _parse_related_topics_csv (lines ["TOP"; ","])
  = Ret {[ "top" := [","]; "rising" := [] ]}
  ∧ _parse_related_topics_csv (lines ["TOP"; ","])
    ≠ _parse_related_topics_csv (lines ["TOP"]).
Proof. split; [by vm_compute|]. vm_compute. discriminate. Qed.

(** C3, amended: a data line whose topic is empty once the value suffix is
    taken off and the rest trimmed is dropped, and the other lines are
    parsed as if it were absent.  The line [,] is not such a line: the
    suffix pattern does not match it, its topic is [,], which is appended to
    the current section when there is one; before any header the line is
    passed over.  In both cases the parse goes on with the lines that
    follow. *)
Theorem empty_topic_dropped_stray_comma_kept :
  (∀ pre post row,
     topic_of row = "" →
     _parse_related_topics_csv (PList (pre ++ PStr row :: post))
     = _parse_related_topics_csv (PList (pre ++ post)))
  ∧ topic_of "," = ","
  ∧ (∀ trends section topics post,
       section ≠ "" →
       trends !! section = Some topics →
       for_each parse_row (trends, Some section) (PStr "," :: post)
       = for_each parse_row
           (<[section := topics ++ [","]]> trends, Some section) post)
  ∧ (∀ trends post,
       for_each parse_row (trends, None) (PStr "," :: post)
       = for_each parse_row (trends, None) post).
Proof.
  split; [|split; [|split]].
  - intros pre post row H. apply parse_skip. intros st.
    by apply parse_row_empty_topic.
  - by vm_compute.
  - intros trends section topics post Hne Hl.
    assert (parse_row (trends, Some section) (PStr ",")
            = Ret (<[section := topics ++ [","]]> trends, Some section)) as E.
    { unfold parse_row. simpl truthy. simpl negb. cbv iota.
      rewrite (bool_decide_eq_false_2 (Str.upper "," = "TOP")) by done.
      rewrite (bool_decide_eq_false_2 (Str.upper "," = "RISING")) by done.
      change (Str.contains ":" ",") with false. cbv iota.
      rewrite (bool_decide_eq_false_2 (section = "")) by done.
      change (topic_of ",") with ",". by rewrite Hl. }
    by rewrite for_each_cons, E.
  - done.
Qed.

Lemma empty_topic_dropped_stray_comma_kept_witness :
  _parse_related_topics_csv
    (PList ([PStr "TOP"; PStr "Coffee,100"] ++ PStr ",100" :: [PStr "Tea,5"]))
  = _parse_related_topics_csv
      (PList ([PStr "TOP"; PStr "Coffee,100"] ++ [PStr "Tea,5"])).
Proof.
  apply (proj1 empty_topic_dropped_stray_comma_kept
           [PStr "TOP"; PStr "Coffee,100"] [PStr "Tea,5"] ",100").
  vm_compute. reflexivity.
Defined.

(** C4, as the specification states it, fails: when the model answers blank
    text, [generate_script] returns the empty script and raises nothing. *)
Lemma blank_script_returned :
  Str.strip "   " = ""
  ∧ run blank_world [] (generate_script (λ viral_angle, viral_angle) "idea")
    = ([LLMCall creative_model "idea"], inr "").
Proof. split; by vm_compute. Qed.

(** C4, amended: [generate_script] makes one call to the creative model.
    When the call, or reading the text of its answer, raises, the method
    raises a terminal error (status 500) that carries the message; otherwise
    it returns the text of the answer trimmed of surrounding whitespace,
    whatever it is: the trimmed text is not checked, and a blank answer
    yields the empty script. *)
Theorem generate_script_outcome (script_prompt : string → string)
    (w : world) (log : list call) (viral_angle : string) :
  run w log (generate_script script_prompt viral_angle)
  = (log ++ [LLMCall creative_model (script_prompt viral_angle)],
     match llm w log creative_model (script_prompt viral_angle) with
     | inr text => inr (Str.strip text)
     | inl e => inl (script_failure e)
     end).
Proof.
  unfold generate_script. simpl.
  by destruct (llm w log creative_model (script_prompt viral_angle)).
Qed.

(** C5, as the specification states it, fails: when the category-specific
    query raises, the whole call fails with a terminal error, and the global
    query, which would have answered, is never made. *)
Lemma category_failure_fails_fetch :
  serp category_down_world [category_call "key" "coffee" "71"]
       (params_global "key")
  = inr [("trending_searches",
          PList [PDict [("title", PDict [("query", PStr "Autumn")])]])]
  ∧ run category_down_world [] (fetch_trends "key" "coffee" "71")
    = ([category_call "key" "coffee" "71"],
       inl (HTTPException 500 "Failed to fetch trends: connection refused"))
  ∧ (run category_down_world [] (fetch_trends "key" "coffee" "71")).2
    ≠ inr (empty_trends, [PStr "Autumn"]).
Proof. split; [|split]; by vm_compute. Qed.

(** C5, amended: an error indicator (a key ['error'] in the answer) from the
    category-specific query or from the global query empties that half of
    the result only (the top and rising lists, or the global list), and the
    other half is what its own answer gives.  An exception raised by either
    query is not absorbed: the whole call fails with a terminal error
    (status 500), and after an exception of the category-specific query the
    global query is not made. *)
Theorem fetch_trends_degradation (api_key : string) (w : world)
    (log : list call) (keyword category_id : string) :
  (∀ d1 d2 g,
     serp w log (params_cat api_key keyword category_id) = inr d1 →
     dict_has "error" d1 = true →
     serp w (log ++ [category_call api_key keyword category_id])
          (params_global api_key) = inr d2 →
     global_trends_of d2 = Ret g →
     run w log (fetch_trends api_key keyword category_id)
     = ((log ++ [category_call api_key keyword category_id])
        ++ [global_call api_key], inr (empty_trends, g)))
  ∧ (∀ d1 c d2,
       serp w log (params_cat api_key keyword category_id) = inr d1 →
       category_trends_of d1 = Ret c →
       serp w (log ++ [category_call api_key keyword category_id])
            (params_global api_key) = inr d2 →
       dict_has "error" d2 = true →
       run w log (fetch_trends api_key keyword category_id)
       = ((log ++ [category_call api_key keyword category_id])
          ++ [global_call api_key], inr (c, [])))
  ∧ (∀ e,
       serp w log (params_cat api_key keyword category_id) = inl e →
       run w log (fetch_trends api_key keyword category_id)
       = (log ++ [category_call api_key keyword category_id],
          inl (fetch_failure e)))
  ∧ (∀ d1 c e,
       serp w log (params_cat api_key keyword category_id) = inr d1 →
       category_trends_of d1 = Ret c →
       serp w (log ++ [category_call api_key keyword category_id])
            (params_global api_key) = inl e →
       run w log (fetch_trends api_key keyword category_id)
       = ((log ++ [category_call api_key keyword category_id])
          ++ [global_call api_key], inl (fetch_failure e))).
Proof.
  split; [|split; [|split]].
  - intros d1 d2 g H1 He H2 Hg.
    eapply fetch_trends_returns; eauto using category_trends_of_error.
  - intros d1 c d2 H1 Hc H2 He.
    eapply fetch_trends_returns; eauto using global_trends_of_error.
  - intros e H. by apply fetch_trends_category_raises.
  - intros d1 c e H1 Hc H2. by eapply fetch_trends_global_raises.
Qed.

Lemma fetch_trends_degradation_witness :
  run category_error_world [] (fetch_trends "key" "coffee" "71")
  = (([] ++ [category_call "key" "coffee" "71"]) ++ [global_call "key"],
     inr (empty_trends, [PStr "Autumn"])).
Proof.
  apply (proj1 (fetch_trends_degradation
                  "key" category_error_world [] "coffee" "71")
           [("error", PStr "Google Trends hasn't returned any results.")]
           [("trending_searches",
             PList [PDict [("title", PDict [("query", PStr "Autumn")])]])]).
  - reflexivity.
  - reflexivity.
  - reflexivity.
  - vm_compute. reflexivity.
Defined.

(** C6: when the rising, the top and the global source are all empty,
    [generate_viral_angle] is a returned value, with no call to a model in
    it: the original idea, unchanged, as the instruction sentence and the
    empty list of selected trends. *)
Theorem viral_angle_bypass_when_no_trends (lower : string → string)
    (json_loads : string → exn + pyval)
    (viral_angle_prompt : string → string → string)
    (original_idea : string) (category_trends : gmap string (list string))
    (global_trends : list string) :
  section_of category_trends "rising" = [] →
  section_of category_trends "top" = [] →
  global_trends = [] →
  generate_viral_angle lower json_loads viral_angle_prompt
    original_idea category_trends global_trends
  = Ret (PStr original_idea, PList [])
  ∧ ∀ w log,
      run w log (generate_viral_angle lower json_loads viral_angle_prompt
                   original_idea category_trends global_trends)
      = (log, inr (PStr original_idea, PList [])).
Proof.
  intros Hr Ht ->.
  assert (trend_candidates lower category_trends [] = []) as E.
  { unfold trend_candidates. rewrite merge_sources, Hr, Ht. done. }
  unfold generate_viral_angle. rewrite E. done.
Qed.

Lemma viral_angle_bypass_when_no_trends_witness :
  generate_viral_angle Str.lower (λ _, inl (ValueError "not JSON"))
    (λ idea trends, idea +:+ trends) "iced coffee" empty_trends []
  = Ret (PStr "iced coffee", PList []).
Proof.
  apply (viral_angle_bypass_when_no_trends
           Str.lower (λ _, inl (ValueError "not JSON"))
           (λ idea trends, idea +:+ trends) "iced coffee" empty_trends []);
    reflexivity.
Defined.

(** C7: a list in which no two entries are equal once lowered, of at most 25
    entries, comes back unchanged from the aggregation step when it is the
    sole source, whichever of the three sources it is. *)
Theorem aggregation_idempotent (lower : string → string)
    (category_trends : gmap string (list string))
    (global_trends L : list string) :
  NoDup (lower <$> L) →
  length L ≤ 25 →
  (section_of category_trends "rising" = L
   ∧ section_of category_trends "top" = [] ∧ global_trends = [])
  ∨ (section_of category_trends "rising" = []
     ∧ section_of category_trends "top" = L ∧ global_trends = [])
  ∨ (section_of category_trends "rising" = []
     ∧ section_of category_trends "top" = [] ∧ global_trends = L) →
  trend_candidates lower category_trends global_trends = L.
Proof.
  intros Hnd Hlen Hsole. unfold trend_candidates. rewrite merge_sources.
  assert (section_of category_trends "rising"
          ++ section_of category_trends "top" ++ global_trends = L) as ->.
  { destruct Hsole as [(-> & -> & ->)|[(-> & -> & ->)|(-> & -> & ->)]];
      simpl; by rewrite ?app_nil_r. }
  rewrite merged_NoDup_id by done. by apply take_ge.
Qed.

Lemma aggregation_idempotent_witness :
  trend_candidates Str.lower
    {[ "rising" := ["Dalgona coffee"; "Coffee"; "Autumn"] ]} []
  = ["Dalgona coffee"; "Coffee"; "Autumn"].
Proof.
  apply (aggregation_idempotent Str.lower
           {[ "rising" := ["Dalgona coffee"; "Coffee"; "Autumn"] ]} []
           ["Dalgona coffee"; "Coffee"; "Autumn"]).
  - apply (bool_decide_unpack _). vm_compute. exact I.
  - simpl. lia.
  - left. repeat split; reflexivity.
Defined.

(** C8: on an input that is empty or missing, [_parse_related_topics_csv]
    returns the trend set whose top and rising lists are both empty; it
    raises nothing. *)
Theorem parse_empty_input :
  _parse_related_topics_csv (lines [])
  = Ret {[ "top" := []; "rising" := [] ]}
  ∧ _parse_related_topics_csv PNone = Ret {[ "top" := []; "rising" := [] ]}
  ∧ ∀ csv_data,
      truthy csv_data = false →
      _parse_related_topics_csv csv_data
      = Ret {[ "top" := []; "rising" := [] ]}.
Proof.
  split; [done|]. split; [done|].
  intros csv_data H. unfold _parse_related_topics_csv. by rewrite H.
Qed.

Lemma parse_empty_input_witness :
  _parse_related_topics_csv (dict_get "csv" (PList []) [])
  = Ret {[ "top" := []; "rising" := [] ]}.
Proof.
  apply (proj2 (proj2 parse_empty_input) (dict_get "csv" (PList []) [])).
  reflexivity.
Defined.

(** C9: a row that holds a colon is no header; the parser passes over it,
    appending nothing to either list, even when it ends in a value suffix:
    the parse is the same as without the row. *)
Theorem colon_row_skipped (row : string) :
  Str.contains ":" row = true →
  (Str.upper row ≠ "TOP" ∧ Str.upper row ≠ "RISING")
  ∧ (∀ st, parse_row st (PStr row) = Ret st)
  ∧ ∀ pre post,
      _parse_related_topics_csv (PList (pre ++ PStr row :: post))
      = _parse_related_topics_csv (PList (pre ++ post)).
Proof.
  intros H. split; [by apply colon_not_header|].
  split; [intros st; by apply parse_row_colon|].
  intros pre post. apply parse_skip. intros st. by apply parse_row_colon.
Qed.

Lemma colon_row_skipped_witness :
  _parse_related_topics_csv
    (PList ([PStr "TOP"] ++ PStr "Coffee: the drink,100" :: [PStr "Tea,5"]))
  = _parse_related_topics_csv (PList ([PStr "TOP"] ++ [PStr "Tea,5"])).
Proof.
  apply (proj2 (proj2 (colon_row_skipped "Coffee: the drink,100" eq_refl))
           [PStr "TOP"] [PStr "Tea,5"]).
Defined.

(** C10: the candidates are the concatenation of the rising, the top and the
    global source with some entries left out: a subsequence of it.  Every
    candidate is, as it stands, an entry of one of the sources. *)
Theorem aggregation_subsequence (lower : string → string)
    (category_trends : gmap string (list string))
    (global_trends : list string) :
  trend_candidates lower category_trends global_trends
    `sublist_of` (section_of category_trends "rising"
                  ++ section_of category_trends "top" ++ global_trends)
  ∧ ∀ x,
      x ∈ trend_candidates lower category_trends global_trends →
      x ∈ section_of category_trends "rising"
      ∨ x ∈ section_of category_trends "top"
      ∨ x ∈ global_trends.
Proof.
  assert (trend_candidates lower category_trends global_trends
            `sublist_of` (section_of category_trends "rising"
                          ++ section_of category_trends "top"
                          ++ global_trends)) as Hsub.
  { unfold trend_candidates. rewrite merge_sources.
    etrans; [apply sublist_take|apply merged_sublist]. }
  split; [done|]. intros x Hx.
  rewrite <- !elem_of_app. by eapply elem_of_sublist.
Qed.

Lemma aggregation_subsequence_witness :
  "Coffee" ∈ section_of scenario_B_category "rising"
  ∨ "Coffee" ∈ section_of scenario_B_category "top"
  ∨ "Coffee" ∈ scenario_B_global.
Proof.
  apply (proj2 (aggregation_subsequence
                  Str.lower scenario_B_category scenario_B_global) "Coffee").
  apply (list_elem_of_lookup_2 _ 1). vm_compute. reflexivity.
Defined.

(** ** Further properties of the code *)

(** *** Running composed computations *)

Lemma run_bind {A B : Type} (w : world) (c : py A) (f : A → py B) log :
  run w log (c ≫= f) = then_run w f (run w log c).
Proof.
  revert log. induction c as [a|e|m prompt k IH|params k IH]; intros log;
    simpl; [done|done|apply IH|apply IH].
Qed.

Lemma run_try_except {A : Type} (w : world) (c : py A) catches handler log :
  run w log (try_except c catches handler)
  = handle_run w catches handler (run w log c).
Proof.
  revert log. induction c as [a|e|m prompt k IH|params k IH]; intros log;
    simpl; [done| |apply IH|apply IH].
  by destruct (catches e).
Qed.

Lemma run_generate_content (w : world) m prompt log :
  run w log (generate_content m prompt)
  = (log ++ [LLMCall m prompt], llm w log m prompt).
Proof. simpl. by destruct (llm w log m prompt). Qed.

Lemma run_get_dict (w : world) params log :
  run w log (get_dict params)
  = (log ++ [SearchCall params], serp w log params).
Proof. simpl. by destruct (serp w log params). Qed.

Lemma run_leaf {A : Type} (w : world) (c : py A) log :
  leaf c → (run w log c).1 = log.
Proof. by destruct c. Qed.

(** *** extract_keyword *)

(** The method makes one call to the utility model.  A keyword it returns
    is the lowered, trimmed text of the answer, is not empty and has at most
    50 characters; every failure is a terminal error of status 500 that
    names the phase. *)
Theorem extract_keyword_outcome (lower : string → string)
    (keyword_prompt : string → string) (w : world) (log : list call)
    (video_idea : string) :
  (run w log (extract_keyword lower keyword_prompt video_idea)).1
  = log ++ [LLMCall utility_model (keyword_prompt video_idea)]
  ∧ match (run w log (extract_keyword lower keyword_prompt video_idea)).2 with
    | inr keyword =>
        keyword ≠ "" ∧ String.length keyword ≤ 50
        ∧ ∃ text,
            llm w log utility_model (keyword_prompt video_idea) = inr text
            ∧ keyword = lower (Str.strip text)
    | inl e => ∃ msg, e = HTTPException 500 ("Failed to extract keyword: " +:+ msg)
    end.
Proof.
  unfold extract_keyword.
  rewrite run_try_except, run_bind, run_generate_content.
  destruct (llm w log utility_model (keyword_prompt video_idea))
    as [e|text]; simpl; [by eauto|].
  case_bool_decide as Hk; simpl; [by eauto|].
  destruct (50 <? String.length (lower (Str.strip text))) eqn:Hlen; simpl;
    [by eauto|].
  apply Nat.ltb_ge in Hlen. naive_solver.
Qed.

(** *** The merge of generate_viral_angle *)

Section MergeMore.

Variable lower : string → string.

(** Going on with more input only adds to what is kept. *)
Lemma merged_prefix l1 l2 :
  (merged_of lower l1).1 `prefix_of` (merged_of lower (l1 ++ l2)).1.
Proof.
  induction l2 as [|x l2 IH] using rev_ind; [by rewrite app_nil_r|].
  rewrite app_assoc.
  destruct (decide (lower x ∈ lower <$> (l1 ++ l2))) as [Hin|Hn].
  - by rewrite merged_of_seen.
  - rewrite merged_of_fresh by done. by apply prefix_app_r.
Qed.

Lemma merged_nil src : (merged_of lower src).1 = [] → src = [].
Proof.
  destruct src as [|x src]; [done|]. intros H.
  pose proof (merged_prefix [x] src) as Hp.
  change ([x] ++ src) with (x :: src) in Hp. rewrite H in Hp.
  apply prefix_nil_inv in Hp.
  change [x] with ([] ++ [x]) in Hp.
  rewrite (merged_of_fresh lower [] x) in Hp; [done|].
  apply not_elem_of_nil.
Qed.

Lemma take_prefix {A : Type} n (l1 l2 : list A) :
  l1 `prefix_of` l2 → take n l1 `prefix_of` take n l2.
Proof. intros [k ->]. rewrite take_app. by apply prefix_app_r. Qed.

(** Every visited entry has its lowered form among the kept ones. *)
Lemma merged_covers src x :
  x ∈ src → ∃ y, y ∈ (merged_of lower src).1 ∧ lower y = lower x.
Proof.
  intros Hx. pose proof (seen_spec lower src (lower x)) as [H1 H2].
  assert (lower x ∈ lower <$> (merged_of lower src).1) as Hk.
  { apply H2, H1. by apply list_elem_of_fmap_2. }
  apply list_elem_of_fmap_1 in Hk as (y & Hy & Hin). eauto.
Qed.

(** A kept entry is the first of the input with its lowered form. *)
Lemma merged_first_spelling src x p q y :
  x ∈ (merged_of lower src).1 →
  first_occurrence x src = Some p →
  q < p → src !! q = Some y → lower y ≠ lower x.
Proof.
  revert x p q y. induction src as [|z src IH] using rev_ind;
    intros x p q y Hx Hp Hq Hy; [done|].
  assert (x ∈ (merged_of lower src).1 → lower y ≠ lower x) as Hold.
  { intros Hx'.
    destruct (first_occurrence_elem x src (merged_elem lower src x Hx'))
      as [p' Hp'].
    rewrite (first_occurrence_app_l _ _ _ _ Hp') in Hp. injection Hp as <-.
    pose proof (first_occurrence_lt _ _ _ Hp') as Hlt.
    rewrite lookup_app_l in Hy by lia. by eapply IH. }
  destruct (decide (lower z ∈ lower <$> src)) as [Hin|Hn].
  - rewrite merged_of_seen in Hx by done. by apply Hold.
  - rewrite merged_of_fresh in Hx by done.
    apply elem_of_app in Hx as [Hx| ->%list_elem_of_singleton];
      [by apply Hold|].
    assert (z ∉ src) as Hz.
    { intros Hz. apply Hn. by apply list_elem_of_fmap_2. }
    rewrite first_occurrence_fresh in Hp by done. injection Hp as <-.
    rewrite lookup_app_l in Hy by done.
    intros Heq. apply Hn. rewrite <- Heq. apply list_elem_of_fmap_2.
    by eapply list_elem_of_lookup_2.
Qed.

Lemma trend_candidates_nil category_trends global_trends :
  trend_candidates lower category_trends global_trends = [] →
  section_of category_trends "rising" = []
  ∧ section_of category_trends "top" = [] ∧ global_trends = [].
Proof.
  unfold trend_candidates. rewrite merge_sources. intros H.
  assert ((merged_of lower
             (section_of category_trends "rising"
              ++ section_of category_trends "top" ++ global_trends)).1 = [])
    as Hm.
  { destruct (merged_of lower _).1; [done|by simpl in H]. }
  apply merged_nil in Hm.
  apply app_eq_nil in Hm as [-> Hm]. by apply app_eq_nil in Hm as [-> ->].
Qed.

End MergeMore.

(** The candidate list is empty exactly when the three sources are: the
    early return of [generate_viral_angle] is taken in that case and in no
    other. *)
Theorem candidates_empty_iff (lower : string → string)
    (category_trends : gmap string (list string))
    (global_trends : list string) :
  trend_candidates lower category_trends global_trends = []
  ↔ section_of category_trends "rising" = []
    ∧ section_of category_trends "top" = []
    ∧ global_trends = [].
Proof.
  split; [apply trend_candidates_nil|].
  intros (Hr & Ht & ->). unfold trend_candidates.
  by rewrite merge_sources, Hr, Ht.
Qed.

Lemma candidates_empty_iff_witness :
  trend_candidates Str.lower empty_trends [] = [].
Proof.
  apply (proj2 (candidates_empty_iff Str.lower empty_trends [])).
  repeat split; reflexivity.
Defined.

(** When a source holds a trend, [generate_viral_angle] makes one call, to
    the utility model, with the prompt made of the idea and the candidates.
    What it returns is an instruction that is truthy and a selection that is
    a list; every failure (a call that raises, an answer that is no JSON, no
    dictionary, or lacks a part) is a terminal error of status 500 that
    names the phase. *)
Theorem viral_angle_call_and_outcome (lower : string → string)
    (json_loads : string → exn + pyval)
    (viral_angle_prompt : string → string → string)
    (w : world) (log : list call) (original_idea : string)
    (category_trends : gmap string (list string))
    (global_trends : list string) :
  section_of category_trends "rising" ≠ []
  ∨ section_of category_trends "top" ≠ []
  ∨ global_trends ≠ [] →
  (run w log (generate_viral_angle lower json_loads viral_angle_prompt
                original_idea category_trends global_trends)).1
  = log ++ [LLMCall utility_model
              (viral_angle_prompt original_idea
                 (trend_list_str
                    (trend_candidates lower category_trends global_trends)))]
  ∧ match (run w log (generate_viral_angle lower json_loads
                        viral_angle_prompt original_idea category_trends
                        global_trends)).2 with
    | inr (viral_angle, selected_trends) =>
        truthy viral_angle = true ∧ is_list selected_trends = true
    | inl e =>
        ∃ msg, e = HTTPException 500 ("Failed to generate viral angle: " +:+ msg)
    end.
Proof.
  intros Hsrc. unfold generate_viral_angle.
  rewrite bool_decide_eq_false_2;
    [|intros H%trend_candidates_nil; tauto].
  rewrite run_try_except, run_bind, run_generate_content.
  destruct (llm w log utility_model _) as [e|text]; simpl; [by eauto|].
  destruct (json_loads _) as [e|result_json]; simpl; [by eauto|].
  destruct result_json as [| | | | | |d]; simpl; try by eauto.
  destruct (truthy (dict_get "viral_angle" PNone d)) eqn:Hv; simpl;
    [|by eauto].
  destruct (is_list (dict_get "selected_trends" (PList []) d)) eqn:Hl; simpl;
    by eauto.
Qed.

Lemma viral_angle_call_and_outcome_witness :
  (run blank_world []
     (generate_viral_angle Str.lower (λ _, inl (ValueError "not JSON"))
        (λ idea trends, idea +:+ trends) "iced coffee"
        scenario_B_category scenario_B_global)).1
  = [] ++ [LLMCall utility_model
             ((λ idea trends, idea +:+ trends) "iced coffee"
                (trend_list_str
                   (trend_candidates Str.lower scenario_B_category
                      scenario_B_global)))].
Proof.
  apply (viral_angle_call_and_outcome Str.lower
           (λ _, inl (ValueError "not JSON"))
           (λ idea trends, idea +:+ trends) blank_world [] "iced coffee"
           scenario_B_category scenario_B_global).
  left. vm_compute. discriminate.
Defined.

(** When the merge keeps at most 25 entries, nothing is cut: every entry
    of every source has a candidate with the same lowered form. *)
Theorem candidates_cover_sources (lower : string → string)
    (category_trends : gmap string (list string))
    (global_trends : list string) (x : string) :
  length (merge_sections lower (sources category_trends global_trends)).1
  ≤ 25 →
  x ∈ section_of category_trends "rising"
      ++ section_of category_trends "top" ++ global_trends →
  ∃ y, y ∈ trend_candidates lower category_trends global_trends
       ∧ lower y = lower x.
Proof.
  unfold trend_candidates. rewrite merge_sources. intros Hlen Hx.
  rewrite take_ge by done. by apply merged_covers.
Qed.

Lemma candidates_cover_sources_witness :
  ∃ y, y ∈ trend_candidates Str.lower scenario_B_category scenario_B_global
       ∧ Str.lower y = Str.lower "dalgona coffee".
Proof.
  apply (candidates_cover_sources Str.lower scenario_B_category
           scenario_B_global "dalgona coffee").
  - vm_compute. lia.
  - apply (list_elem_of_lookup_2 _ 2). vm_compute. reflexivity.
Defined.

(** The sources that come later never displace what the earlier ones
    give: the candidates of the rising source alone, and those of the rising
    and top sources, open the candidate list of the three sources. *)
Theorem candidates_keep_priority (lower : string → string)
    (category_trends : gmap string (list string))
    (global_trends : list string) :
  trend_candidates lower
    {[ "rising" := section_of category_trends "rising" ]} []
    `prefix_of` trend_candidates lower category_trends []
  ∧ trend_candidates lower category_trends []
      `prefix_of` trend_candidates lower category_trends global_trends.
Proof.
  unfold trend_candidates. rewrite !merge_sources. split.
  - apply take_prefix.
    assert (section_of ({[ "rising" := section_of category_trends "rising" ]}
                          : gmap string (list string)) "rising"
            = section_of category_trends "rising") as -> by done.
    assert (section_of ({[ "rising" := section_of category_trends "rising" ]}
                          : gmap string (list string)) "top" = []) as -> by done.
    rewrite !app_nil_r. apply merged_prefix.
  - apply take_prefix. rewrite app_nil_r, app_assoc. apply merged_prefix.
Qed.

(** Aggregating the candidates again, as the sole source, gives them
    back. *)
Theorem candidates_stable (lower : string → string)
    (category_trends : gmap string (list string))
    (global_trends : list string) :
  trend_candidates lower ∅
    (trend_candidates lower category_trends global_trends)
  = trend_candidates lower category_trends global_trends.
Proof.
  unfold trend_candidates at 1. rewrite merge_sources.
  assert (section_of (∅ : gmap string (list string)) "rising" = []) as ->
    by done.
  assert (section_of (∅ : gmap string (list string)) "top" = []) as ->
    by done.
  simpl. rewrite merged_NoDup_id.
  - apply take_ge. unfold trend_candidates. rewrite length_take. lia.
  - unfold trend_candidates. rewrite merge_sources, fmap_take.
    eapply sublist_NoDup; [apply merged_NoDup|apply sublist_take].
Qed.

(** Of the entries with one lowered form the candidate is the one the
    sources show first: no entry before a candidate's first occurrence has
    its lowered form. *)
Theorem candidates_first_spelling (lower : string → string)
    (category_trends : gmap string (list string))
    (global_trends : list string) (x y : string) (p q : nat) :
  x ∈ trend_candidates lower category_trends global_trends →
  first_occurrence x (section_of category_trends "rising"
                      ++ section_of category_trends "top"
                      ++ global_trends) = Some p →
  q < p →
  (section_of category_trends "rising"
   ++ section_of category_trends "top" ++ global_trends) !! q = Some y →
  lower y ≠ lower x.
Proof.
  unfold trend_candidates. rewrite merge_sources. intros Hx.
  apply (merged_first_spelling lower).
  eapply elem_of_sublist; [done|apply sublist_take].
Qed.

Lemma candidates_first_spelling_witness :
  Str.lower "Dalgona coffee" ≠ Str.lower "Coffee".
Proof.
  apply (candidates_first_spelling Str.lower scenario_B_category
           scenario_B_global "Coffee" "Dalgona coffee" 1 0).
  - apply (list_elem_of_lookup_2 _ 1). vm_compute. reflexivity.
  - vm_compute. reflexivity.
  - lia.
  - vm_compute. reflexivity.
Defined.


(** *** Texts and patterns *)

Lemma append_cons c s t : String c s +:+ t = String c (s +:+ t).
Proof. done. Qed.

Lemma append_nil_r s : s +:+ "" = s.
Proof. induction s as [|c s IH]; [done|]. by rewrite append_cons, IH. Qed.

Lemma append_assoc s t u : (s +:+ t) +:+ u = s +:+ (t +:+ u).
Proof. induction s as [|c s IH]; [done|]. by rewrite !append_cons, IH. Qed.

Lemma length_append s t :
  String.length (s +:+ t) = String.length s + String.length t.
Proof. induction s as [|c s IH]; [done|]. rewrite append_cons. simpl. lia. Qed.

Lemma has_char_append c s t :
  has_char c (s +:+ t) = has_char c s || has_char c t.
Proof.
  induction s as [|c' s IH]; [done|]. rewrite append_cons. simpl.
  by rewrite IH, orb_assoc.
Qed.

Lemma strip_prefix_Some p s s' :
  Str.strip_prefix p s = Some s' → s = p +:+ s'.
Proof.
  revert s. induction p as [|a p IH]; intros s; simpl; [by intros [= ->]|].
  destruct s as [|b s]; [done|]. case_bool_decide; [|done]. subst.
  intros H%IH. by rewrite H.
Qed.

Lemma strip_prefix_append p s : Str.strip_prefix p (p +:+ s) = Some s.
Proof.
  induction p as [|a p IH]; [done|]. rewrite append_cons. simpl.
  by rewrite bool_decide_eq_true_2.
Qed.

Lemma repeat_atom_sound a s k x :
  repeat_atom a s k = Some x →
  ∃ m s', s = m +:+ s' ∧ m ≠ "" ∧ all_ok a m = true ∧ k s' = Some x.
Proof.
  revert x. induction s as [|c s IH]; intros x; simpl; [done|].
  destruct (atom_ok a c) eqn:Hc; [|done].
  destruct (repeat_atom a s k) as [y|] eqn:Hrec.
  - intros [= <-]. destruct (IH y eq_refl) as (m & s' & -> & _ & Hm & Hk).
    exists (String c m), s'. simpl. by rewrite Hc, Hm.
  - intros Hk. exists (String c ""), s. simpl. by rewrite Hc.
Qed.

(** What the matcher accepts is a text of the pattern. *)
Lemma matches_sound r s k x :
  matches r s k = Some x →
  ∃ m s', s = m +:+ s' ∧ denotes r m s' ∧ k s' = Some x.
Proof.
  revert s k x. induction r as [a|p|r1 IH1 r2 IH2|r1 IH1 r2 IH2|r1 IH1|a|];
    intros s k x; simpl.
  - destruct s as [|c s]; [done|]. destruct (atom_ok a c) eqn:Hc; [|done].
    intros Hk. exists (String c ""), s. eauto.
  - destruct (Str.strip_prefix p s) as [s'|] eqn:Hp; [|done].
    apply strip_prefix_Some in Hp as ->. intros Hk. by exists p, s'.
  - intros (m1 & s1 & -> & H1 & H)%IH1.
    apply IH2 in H as (m2 & s2 & -> & H2 & Hk).
    exists (m1 +:+ m2), s2. rewrite append_assoc. split; [done|].
    split; [|done]. by exists m1, m2.
  - destruct (matches r1 s k) as [y|] eqn:H1.
    + intros [= <-]. apply IH1 in H1 as (m & s' & -> & H & Hk).
      exists m, s'. eauto.
    + intros (m & s' & -> & H & Hk)%IH2. exists m, s'. eauto.
  - destruct (matches r1 s k) as [y|] eqn:H1.
    + intros [= <-]. apply IH1 in H1 as (m & s' & -> & H & Hk).
      exists m, s'. eauto.
    + intros Hk. exists "", s. eauto.
  - intros (m & s' & -> & Hne & Hm & Hk)%repeat_atom_sound.
    exists m, s'. eauto.
  - destruct (at_end s) eqn:He; [|done]. intros Hk. exists "", s. eauto.
Qed.

Section Scan.

Variables (r : regex) (repl : string).

Lemma sub_scan_skip m rest :
  sub_scan r repl (String.length m) (m +:+ rest) = sub_scan r repl 0 rest.
Proof.
  induction m as [|c m IH]; [by destruct rest|].
  rewrite append_cons. simpl. apply IH.
Qed.

(** A match at the current position is replaced, and the scan goes on
    after it. *)
Lemma sub_scan_match c m rest :
  match_here r (String c m +:+ rest) = Some rest →
  sub_scan r repl 0 (String c m +:+ rest)
  = repl +:+ sub_scan r repl 0 rest.
Proof.
  intros H. rewrite append_cons in *. simpl. rewrite H.
  rewrite length_append.
  replace (S (String.length m + String.length rest) - String.length rest)
    with (S (String.length m)) by lia.
  by rewrite sub_scan_skip.
Qed.

Lemma sub_scan_no_match c s :
  match_here r (String c s) = None →
  sub_scan r repl 0 (String c s) = String c (sub_scan r repl 0 s).
Proof. intros H. simpl. by rewrite H. Qed.

End Scan.

(** *** The value suffix of a data line *)

Lemma all_ok_digit_no_comma m :
  all_ok Digit m = true → has_char ","%char m = false.
Proof.
  induction m as [|c m IH]; [done|]. simpl.
  intros [Hc Hm]%andb_true_iff. rewrite (IH Hm), orb_false_r.
  apply bool_decide_eq_false. intros ->. by vm_compute in Hc.
Qed.

Lemma at_end_no_comma rest :
  at_end rest = true → has_char ","%char rest = false.
Proof.
  destruct rest as [|c [|c' rest]]; [done| |done]. simpl.
  intros ->%bool_decide_eq_true. by vm_compute.
Qed.

Lemma atom_ok_chr c c' : atom_ok (Chr c') c = true → c = c'.
Proof. apply bool_decide_eq_true. Qed.

(** A text of the suffix pattern is a comma, then a value that holds no
    comma, at the end of the line. *)
Lemma value_suffix_shape m rest :
  denotes value_suffix m rest →
  ∃ body, m = String ","%char body ∧ has_char ","%char body = false
          ∧ at_end rest = true.
Proof.
  simpl. intros (m1 & m2 & -> & (c & -> & ->%atom_ok_chr)
                 & (m3 & m4 & -> & Halt & -> & Hend)).
  exists (m3 +:+ ""). split; [done|]. split; [|done].
  rewrite append_nil_r.
  destruct Halt as [(a & b & -> & Hsign & (d & e & -> & [_ Hd] & Hpct))| ->];
    [|by vm_compute].
  rewrite !has_char_append, (all_ok_digit_no_comma d Hd).
  assert (has_char ","%char a = false) as ->.
  { destruct Hsign as [->|(c & -> & ->%atom_ok_chr)]; by vm_compute. }
  assert (has_char ","%char e = false) as ->; [|done].
  destruct Hpct as [->|(c & -> & ->%atom_ok_chr)]; by vm_compute.
Qed.

(** No match of the suffix pattern starts before the last comma. *)
Lemma value_suffix_not_before c s t :
  match_here value_suffix (String c (s +:+ String ","%char t)) = None.
Proof.
  destruct (match_here value_suffix (String c (s +:+ String ","%char t)))
    as [x|] eqn:H; [|done]. exfalso.
  apply matches_sound in H as (m & s' & Heq & Hm & _).
  apply value_suffix_shape in Hm as (body & -> & Hbody & Hend).
  rewrite append_cons in Heq. injection Heq as _ Heq.
  assert (has_char ","%char (s +:+ String ","%char t) = true) as Hc.
  { rewrite has_char_append. simpl. apply orb_true_r. }
  rewrite Heq, has_char_append, Hbody, (at_end_no_comma _ Hend) in Hc. done.
Qed.

Lemma repeat_atom_all a ds t k x :
  all_ok a ds = true → ds ≠ "" →
  repeat_atom a t k = None → k t = Some x →
  repeat_atom a (ds +:+ t) k = Some x.
Proof.
  intros Hds Hne Ht Hk. induction ds as [|c ds IH]; [done|].
  rewrite append_cons. simpl in *.
  apply andb_true_iff in Hds as [-> Hds].
  destruct ds as [|c' ds].
  - change ("" +:+ t) with t. by rewrite Ht.
  - by rewrite IH.
Qed.

Lemma matches_one_fail a c s k :
  atom_ok a c = false → matches (One a) (String c s) k = None.
Proof. intros H. simpl. by rewrite H. Qed.

(** The suffix pattern after its comma: a number, or else the word. *)
Lemma value_suffix_unfold v :
  match_here value_suffix (String ","%char v)
  = match
      match
        matches (One (Chr "+"%char)) v
          (λ s1, repeat_atom Digit s1
                   (λ s2, matches (Opt (One (Chr "%"%char))) s2
                            (λ s3, matches Eol s3 Some)))
      with
      | Some x => Some x
      | None =>
          repeat_atom Digit v
            (λ s2, matches (Opt (One (Chr "%"%char))) s2
                     (λ s3, matches Eol s3 Some))
      end
    with
    | Some x => Some x
    | None => matches (Lit "Breakout") v (λ s3, matches Eol s3 Some)
    end.
Proof. reflexivity. Qed.

(** The values the pattern is for: digits, with or without a sign before
    and a percent sign after. *)
Lemma value_suffix_number sign digits pct :
  sign = "" ∨ sign = "+" →
  digits ≠ "" → all_digits digits = true →
  pct = "" ∨ pct = "%" →
  match_here value_suffix (String ","%char (sign +:+ digits +:+ pct))
  = Some "".
Proof.
  intros Hsign Hne Hd Hpct.
  assert (all_ok Digit digits = true) as Hok.
  { clear Hne. induction digits as [|c ds IH]; [done|]. simpl in *.
    apply andb_true_iff in Hd as [-> Hd]. by rewrite IH. }
  rewrite value_suffix_unfold.
  assert (repeat_atom Digit (digits +:+ pct)
            (λ s2, matches (Opt (One (Chr "%"%char))) s2
                     (λ s3, matches Eol s3 Some)) = Some "") as Hrep.
  { apply repeat_atom_all; [done|done| |];
      destruct Hpct as [-> | ->]; by vm_compute. }
  destruct Hsign as [-> | ->].
  - change ("" +:+ digits +:+ pct) with (digits +:+ pct).
    destruct digits as [|d ds]; [done|].
    change (String d ds +:+ pct) with (String d (ds +:+ pct)) in *.
    rewrite matches_one_fail, Hrep; [done|].
    apply bool_decide_eq_false. intros ->. by vm_compute in Hd.
  - change ("+" +:+ digits +:+ pct) with (String "+"%char (digits +:+ pct)).
    change (matches (One (Chr "+"%char)) (String "+"%char (digits +:+ pct))
              (λ s1, repeat_atom Digit s1
                       (λ s2, matches (Opt (One (Chr "%"%char))) s2
                                (λ s3, matches Eol s3 Some))))
      with (repeat_atom Digit (digits +:+ pct)
              (λ s2, matches (Opt (One (Chr "%"%char))) s2
                       (λ s3, matches Eol s3 Some))).
    by rewrite Hrep.
Qed.

Lemma sub_value_suffix name value :
  match_here value_suffix (String ","%char value) = Some "" →
  Re.sub value_suffix "" (name +:+ String ","%char value) = name.
Proof.
  intros H. unfold Re.sub. induction name as [|c name IH].
  - change ("" +:+ String ","%char value) with (String ","%char value).
    rewrite <- (append_nil_r (String ","%char value)).
    rewrite sub_scan_match; [done|]. by rewrite append_nil_r.
  - rewrite append_cons, sub_scan_no_match; [by rewrite IH|].
    apply value_suffix_not_before.
Qed.

Lemma sub_value_suffix_no_comma row :
  has_char ","%char row = false → Re.sub value_suffix "" row = row.
Proof.
  unfold Re.sub. induction row as [|c row IH]; [done|]. simpl has_char.
  intros [Hc Hrow]%orb_false_iff. rewrite sub_scan_no_match; [by rewrite IH|].
  unfold match_here. simpl. by rewrite Hc.
Qed.

(** The parser recovers the name of a topic from a data line: whatever the
    name (commas in it or not), a line made of the name, a comma and a value
    (digits with or without a sign before and a percent sign after, or the
    word Breakout) has the trimmed name as its topic. *)
Theorem topic_of_data_line (name sign digits pct : string) :
  sign = "" ∨ sign = "+" →
  digits ≠ "" → all_digits digits = true →
  pct = "" ∨ pct = "%" →
  topic_of (name +:+ "," +:+ sign +:+ digits +:+ pct) = Str.strip name
  ∧ topic_of (name +:+ ",Breakout") = Str.strip name.
Proof.
  intros Hsign Hne Hd Hpct. unfold topic_of. split.
  - change (name +:+ "," +:+ sign +:+ digits +:+ pct)
      with (name +:+ String ","%char (sign +:+ digits +:+ pct)).
    rewrite sub_value_suffix; [done|]. by apply value_suffix_number.
  - change (name +:+ ",Breakout") with (name +:+ String ","%char "Breakout").
    rewrite sub_value_suffix; [done|]. by vm_compute.
Qed.

Lemma topic_of_data_line_witness :
  topic_of ("Coffee, iced" +:+ "," +:+ "+" +:+ "250" +:+ "%")
  = Str.strip "Coffee, iced"
  ∧ topic_of ("Coffee, iced" +:+ ",Breakout") = Str.strip "Coffee, iced".
Proof.
  apply (topic_of_data_line "Coffee, iced" "+" "250" "%").
  - right. reflexivity.
  - discriminate.
  - reflexivity.
  - right. reflexivity.
Defined.

(** A line without a comma has no value suffix: its topic is the whole
    line, trimmed. *)
Theorem topic_of_line_without_comma (row : string) :
  has_char ","%char row = false → topic_of row = Str.strip row.
Proof.
  intros H. unfold topic_of. by rewrite sub_value_suffix_no_comma.
Qed.

Lemma topic_of_line_without_comma_witness :
  topic_of "Cold brew  " = Str.strip "Cold brew  ".
Proof. apply (topic_of_line_without_comma "Cold brew  "). reflexivity. Defined.

(** *** The code fences of an answer *)

Lemma code_fence_not_here c s :
  c ≠ "`"%char → match_here code_fence (String c s) = None.
Proof.
  intros Hc. unfold match_here. simpl.
  by rewrite !bool_decide_eq_false_2 by done.
Qed.

Lemma code_fence_unfold s :
  match_here code_fence s
  = match
      match Str.strip_prefix "```json" s with
      | Some s' => matches (Opt (One (Chr Str.LF))) s' Some
      | None => None
      end
    with
    | Some rest => Some rest
    | None => matches (Lit "```") s Some
    end.
Proof. reflexivity. Qed.

Lemma sub_code_fence_free s :
  has_char "`"%char s = false → Re.sub code_fence "" s = s.
Proof.
  unfold Re.sub. induction s as [|c s IH]; [done|]. simpl has_char.
  intros [Hc Hs]%orb_false_iff. apply bool_decide_eq_false in Hc.
  rewrite sub_scan_no_match; [by rewrite IH|]. by apply code_fence_not_here.
Qed.

Lemma sub_code_fence_closing body :
  has_char "`"%char body = false →
  sub_scan code_fence "" 0 (body +:+ "```") = body.
Proof.
  induction body as [|c body IH]; [by intros _; vm_compute|]. simpl has_char.
  intros [Hc Hs]%orb_false_iff. apply bool_decide_eq_false in Hc.
  rewrite append_cons, sub_scan_no_match; [by rewrite IH|].
  by apply code_fence_not_here.
Qed.

(** Removing the code fences leaves an answer without a backquote as it
    is, and unwraps an answer that is fenced as JSON: what stands between
    the opening fence with its newline and the closing fence is kept. *)
Theorem code_fences_removed (body : string) :
  has_char "`"%char body = false →
  Re.sub code_fence "" body = body
  ∧ Re.sub code_fence "" ("```json" +:+ String Str.LF body +:+ "```") = body.
Proof.
  intros H. split; [by apply sub_code_fence_free|]. unfold Re.sub.
  change ("```json" +:+ String Str.LF body +:+ "```")
    with (String "`"%char ("``json" +:+ String Str.LF "")
          +:+ (body +:+ "```")).
  rewrite sub_scan_match; [by rewrite sub_code_fence_closing|].
  change (String "`"%char ("``json" +:+ String Str.LF "") +:+ (body +:+ "```"))
    with ("```json" +:+ String Str.LF (body +:+ "```")).
  by rewrite code_fence_unfold, strip_prefix_append.
Qed.

Lemma code_fences_removed_witness :
  Re.sub code_fence "" "{}" = "{}"
  ∧ Re.sub code_fence "" ("```json" +:+ String Str.LF "{}" +:+ "```") = "{}".
Proof. apply (code_fences_removed "{}"). reflexivity. Defined.

(** *** The parser on text lines *)

Lemma insert_top (a b a' : list string) :
  <["top" := a']> ({[ "top" := a; "rising" := b ]} : gmap string (list string))
  = {[ "top" := a'; "rising" := b ]}.
Proof. apply insert_insert_eq. Qed.

Lemma insert_rising (a b b' : list string) :
  <["rising" := b']>
    ({[ "top" := a; "rising" := b ]} : gmap string (list string))
  = {[ "top" := a; "rising" := b' ]}.
Proof. rewrite insert_insert_ne by done. by rewrite insert_singleton_eq. Qed.

Lemma from_rows_mono l1 l2 topic :
  (∀ row, row ∈ l1 → row ∈ l2) → from_rows l1 topic → from_rows l2 topic.
Proof. intros Hsub (Hne & row & Hin & Hd & Ht). split; eauto 6. Qed.

(** One text line, read in a state that holds the two lists: no exception,
    and the lists grow, if at all, by the topic of the line. *)
Lemma parse_row_line a b cs row :
  good_section cs →
  ∃ a' b' cs',
    parse_row ({[ "top" := a; "rising" := b ]}, cs) (PStr row)
    = Ret ({[ "top" := a ++ a'; "rising" := b ++ b' ]}, cs')
    ∧ good_section cs'
    ∧ Forall (from_rows [row]) (a' ++ b').
Proof.
  intros Hcs. unfold parse_row, good_section in *.
  assert (∀ cs', good_section cs' →
    ∃ a' b' cs'',
      Ret (({[ "top" := a; "rising" := b ]} : gmap string (list string)), cs')
      = Ret ({[ "top" := a ++ a'; "rising" := b ++ b' ]}, cs'')
      ∧ good_section cs'' ∧ Forall (from_rows [row]) (a' ++ b')) as Hsame.
  { intros cs' Hcs'. exists [], [], cs'. rewrite !app_nil_r.
    split; [done|]. split; [done|constructor]. }
  unfold good_section in Hsame.
  destruct (decide (row = "")) as [->|Hrow]; [by apply Hsame|].
  simpl truthy. rewrite (bool_decide_eq_false_2 (row = "")) by done.
  simpl negb. cbv iota.
  case_bool_decide as Htop; [apply Hsame; auto|].
  case_bool_decide as Hrising; [apply Hsame; auto|].
  destruct (Str.contains ":" row) eqn:Hcolon; [by apply Hsame|].
  assert (is_data_line row = true) as Hdata.
  { unfold is_data_line, is_header.
    by rewrite Hcolon, !bool_decide_eq_false_2 by done. }
  destruct Hcs as [->|[->| ->]]; [apply Hsame; auto| |].
  - rewrite bool_decide_eq_false_2 by done.
    case_bool_decide as Htopic; simpl; [apply Hsame; auto|].
    rewrite lookup_insert_eq. simpl. rewrite insert_top.
    exists [topic_of row], [], (Some "top"). rewrite app_nil_r.
    split; [done|]. split; [auto|].
    apply Forall_singleton. split; [done|]. exists row.
    split; [apply list_elem_of_here|done].
  - rewrite bool_decide_eq_false_2 by done.
    case_bool_decide as Htopic; simpl; [apply Hsame; auto|].
    rewrite lookup_insert_ne by done. rewrite lookup_singleton_eq. simpl.
    rewrite insert_rising.
    exists [], [topic_of row], (Some "rising"). rewrite app_nil_r.
    split; [done|]. split; [auto|].
    apply Forall_singleton. split; [done|]. exists row.
    split; [apply list_elem_of_here|done].
Qed.

Lemma for_each_lines l a b cs :
  good_section cs →
  ∃ a' b' cs',
    for_each parse_row ({[ "top" := a; "rising" := b ]}, cs) (PStr <$> l)
    = Ret ({[ "top" := a ++ a'; "rising" := b ++ b' ]}, cs')
    ∧ good_section cs'
    ∧ Forall (from_rows l) (a' ++ b').
Proof.
  revert a b cs. induction l as [|row l IH]; intros a b cs Hcs.
  - exists [], [], cs. rewrite !app_nil_r. split; [done|].
    split; [done|constructor].
  - destruct (parse_row_line a b cs row Hcs) as (a1 & b1 & cs1 & E1 & Hcs1 & F1).
    destruct (IH (a ++ a1) (b ++ b1) cs1 Hcs1)
      as (a2 & b2 & cs2 & E2 & Hcs2 & F2).
    exists (a1 ++ a2), (b1 ++ b2), cs2.
    rewrite fmap_cons, for_each_cons, E1. simpl. rewrite E2, !app_assoc.
    split; [done|]. split; [done|].
    apply Forall_app in F1 as [F1a F1b]. apply Forall_app in F2 as [F2a F2b].
    rewrite !Forall_app. repeat split;
      (eapply Forall_impl; [eassumption|]); intros t;
      apply from_rows_mono; intros r Hr.
    + apply list_elem_of_singleton in Hr as ->. apply list_elem_of_here.
    + by apply list_elem_of_further.
    + apply list_elem_of_singleton in Hr as ->. apply list_elem_of_here.
    + by apply list_elem_of_further.
Qed.

(** A run of the loop that returned can be taken up where it stopped. *)
Lemma for_each_app_ret st l1 st1 l2 :
  for_each parse_row st l1 = Ret st1 →
  for_each parse_row st (l1 ++ l2) = for_each parse_row st1 l2.
Proof.
  revert st. induction l1 as [|x l1 IH]; intros st; simpl.
  - by intros [= ->].
  - pose proof (parse_row_leaf st x) as Hl.
    destruct (parse_row st x) as [st'| | |]; try done. simpl. apply IH.
Qed.

Lemma parse_lines_unfold l :
  _parse_related_topics_csv (lines l)
  = (st ← for_each parse_row (empty_trends, None) (PStr <$> l); Ret st.1).
Proof. by destruct l. Qed.

(** On text lines the parser raises nothing and returns the two lists, and
    nothing else; reading more lines only appends to them: what a prefix of
    the input gives opens what the whole input gives. *)
Theorem parse_lines_total_and_growing (l1 l2 : list string) :
  ∃ top1 rising1 top2 rising2,
    _parse_related_topics_csv (lines l1)
    = Ret {[ "top" := top1; "rising" := rising1 ]}
    ∧ _parse_related_topics_csv (lines (l1 ++ l2))
      = Ret {[ "top" := top1 ++ top2; "rising" := rising1 ++ rising2 ]}.
Proof.
  destruct (for_each_lines l1 [] [] None) as (a1 & b1 & cs1 & E1 & Hcs1 & _);
    [by left|].
  destruct (for_each_lines l2 a1 b1 cs1 Hcs1) as (a2 & b2 & cs2 & E2 & _ & _).
  change ([] ++ a1) with a1 in E1. change ([] ++ b1) with b1 in E1.
  exists a1, b1, a2, b2. rewrite !parse_lines_unfold. unfold empty_trends.
  rewrite fmap_app, (for_each_app_ret _ _ _ _ E1), E1, E2. done.
Qed.

(** Every topic the parser returns is the topic of a data line of the
    input (a line that is not empty, no header, and without a colon), and is
    not empty. *)
Theorem parse_topics_from_data_lines (l : list string)
    (trends : gmap string (list string)) (section : string)
    (topics : list string) (topic : string) :
  _parse_related_topics_csv (lines l) = Ret trends →
  trends !! section = Some topics →
  topic ∈ topics →
  topic ≠ ""
  ∧ ∃ row, row ∈ l ∧ is_data_line row = true ∧ topic = topic_of row.
Proof.
  destruct (for_each_lines l [] [] None) as (a & b & cs & E & _ & F);
    [by left|].
  rewrite parse_lines_unfold. unfold empty_trends. rewrite E. simpl.
  intros [= <-] Hsec Hin. apply Forall_app in F as [Fa Fb].
  destruct (decide (section = "top")) as [->|Hnt].
  - rewrite lookup_insert_eq in Hsec. injection Hsec as <-.
    by apply (proj1 (Forall_forall _ _) Fa).
  - rewrite lookup_insert_ne in Hsec by done.
    destruct (decide (section = "rising")) as [->|Hnr].
    + rewrite lookup_singleton_eq in Hsec. injection Hsec as <-.
      by apply (proj1 (Forall_forall _ _) Fb).
    + by rewrite lookup_singleton_ne in Hsec.
Qed.

Lemma parse_topics_from_data_lines_witness :
  "Matcha" ≠ ""
  ∧ ∃ row, row ∈ ["RISING"; "Matcha,Breakout"; "note: ignored"]
           ∧ is_data_line row = true ∧ "Matcha" = topic_of row.
Proof.
  apply (parse_topics_from_data_lines
           ["RISING"; "Matcha,Breakout"; "note: ignored"]
           {[ "top" := []; "rising" := ["Matcha"] ]} "rising" ["Matcha"]).
  - vm_compute. reflexivity.
  - reflexivity.
  - apply list_elem_of_here.
Defined.











Lemma parse_row_falsy st row :
  truthy row = false → parse_row st row = Ret st.
Proof. intros H. destruct st. unfold parse_row. by rewrite H. Qed.

(** Rows that are no text.  A falsy row of any kind (None, zero, an empty
    list) is passed over like an empty line; a truthy row that is no string
    makes the parser raise AttributeError at that row, whatever follows. *)
Theorem parse_row_that_is_no_text (v : pyval) :
  (truthy v = false →
   ∀ pre post,
     _parse_related_topics_csv (PList (pre ++ v :: post))
     = _parse_related_topics_csv (PList (pre ++ post)))
  ∧ (truthy v = true → (∀ s, v ≠ PStr s) →
     ∀ l post,
       _parse_related_topics_csv (PList ((PStr <$> l) ++ v :: post))
       = Raise (AttributeError v "upper")).
Proof.
  split.
  - intros Hv pre post. apply parse_skip. intros st.
    by apply parse_row_falsy.
  - intros Hv Hns l post. unfold _parse_related_topics_csv.
    assert (truthy (PList ((PStr <$> l) ++ v :: post)) = true) as ->.
    { simpl. rewrite length_app. simpl.
      rewrite bool_decide_eq_false_2; [done|lia]. }
    simpl negb. cbv iota. simpl py_iter.
    change (rows ← Ret ((PStr <$> l) ++ v :: post);
            st ← for_each parse_row (empty_trends, None) rows; Ret st.1)
      with (st ← for_each parse_row (empty_trends, None)
                   ((PStr <$> l) ++ v :: post);
            Ret st.1).
    destruct (for_each_lines l [] [] None) as (a & b & cs & E & _ & _);
      [by left|].
    unfold empty_trends. rewrite (for_each_app_ret _ _ _ _ E), for_each_cons.
    unfold parse_row. rewrite Hv. simpl.
    destruct v; try done. by destruct (Hns s).
Qed.

Lemma parse_row_that_is_no_text_witness :
  _parse_related_topics_csv
    (PList ((PStr <$> ["TOP"; "Coffee,100"]) ++ PInt 7 :: [PStr "Tea,5"]))
  = Raise (AttributeError (PInt 7) "upper").
Proof.
  apply (proj2 (parse_row_that_is_no_text (PInt 7))); [reflexivity|done].
Defined.

(** *** fetch_trends *)

Lemma title_query_entry query : title_query (trending_entry query) = Ret query.
Proof. reflexivity. Qed.

Lemma queries_cons t searches :
  queries (t :: searches)
  = (keep ← title_query t;
     if truthy keep then
       query ← title_query t; rest ← queries searches; Ret (query :: rest)
     else queries searches).
Proof. done. Qed.


Lemma queries_raise qs v post :
  (∀ d, v ≠ PDict d) →
  queries ((trending_entry <$> qs) ++ v :: post)
  = Raise (AttributeError v "get").
Proof.
  intros Hv. induction qs as [|q qs IH].
  - simpl. destruct v; try done. by destruct (Hv d).
  - rewrite fmap_cons, <- app_comm_cons, queries_cons, title_query_entry.
    simpl. destruct (truthy q); simpl; by rewrite IH.
Qed.

Lemma dict_get_missing key default d :
  dict_has key d = false → dict_get key default d = default.
Proof.
  induction d as [|[k v] d IH]; [done|]. simpl.
  intros [Hk Hd]%orb_false_iff. rewrite Hk. by apply IH.
Qed.

Section FetchMore.

Variable api_key : string.
Variables (w : world) (log : list call) (keyword category_id : string).

Lemma fetch_trends_half_raises d1 :
  serp w log (params_cat api_key keyword category_id) = inr d1 →
  (∀ e, category_trends_of d1 = Raise e →
     run w log (fetch_trends api_key keyword category_id)
     = (log ++ [category_call api_key keyword category_id],
        inl (fetch_failure e)))
  ∧ (∀ c d2 e,
       category_trends_of d1 = Ret c →
       serp w (log ++ [category_call api_key keyword category_id])
            (params_global api_key) = inr d2 →
       global_trends_of d2 = Raise e →
       run w log (fetch_trends api_key keyword category_id)
       = ((log ++ [category_call api_key keyword category_id])
          ++ [global_call api_key], inl (fetch_failure e))).
Proof.
  intros H1. unfold category_call, global_call. split.
  - intros e Hc. unfold fetch_trends. simpl. rewrite H1. simpl.
    by rewrite Hc.
  - intros c d2 e Hc H2 Hg. unfold fetch_trends. simpl. rewrite H1. simpl.
    rewrite Hc. simpl. rewrite H2. simpl. by rewrite Hg.
Qed.

(** The method makes the category query and then, unless that half failed,
    the global query, and no other call; what leaves it is a pair of
    trends or a terminal error of status 500 that names the phase. *)
Theorem fetch_trends_calls_and_outcome :
  ((run w log (fetch_trends api_key keyword category_id)).1
   = log ++ [category_call api_key keyword category_id]
   ∨ (run w log (fetch_trends api_key keyword category_id)).1
     = (log ++ [category_call api_key keyword category_id])
       ++ [global_call api_key])
  ∧ value_or_500 "Failed to fetch trends: "
      (run w log (fetch_trends api_key keyword category_id)).2.
Proof.
  unfold fetch_trends, category_call, global_call. simpl.
  destruct (serp w log (params_cat api_key keyword category_id)) as [e|d1];
    simpl; [by eauto|].
  pose proof (category_trends_of_leaf d1) as Hc.
  destruct (category_trends_of d1) as [c|e| |]; try done; simpl;
    [|by eauto].
  destruct (serp w _ (params_global api_key)) as [e|d2];
    simpl; [by eauto|].
  pose proof (global_trends_of_leaf d2) as Hg.
  destruct (global_trends_of d2) as [g|e| |]; try done; simpl; by eauto.
Qed.


(** Answers that hold nothing.  When neither answer has an error indicator,
    the first has no ['csv'] and the second no list of trending entries,
    the method returns the empty trend set and the empty global list: a
    missing part is no error. *)
Theorem fetch_trends_of_bare_answers (d1 d2 : list (string * pyval)) :
  serp w log (params_cat api_key keyword category_id) = inr d1 →
  dict_has "error" d1 = false → dict_has "csv" d1 = false →
  serp w (log ++ [category_call api_key keyword category_id])
       (params_global api_key) = inr d2 →
  dict_has "error" d2 = false → trending_searches d2 = [] →
  run w log (fetch_trends api_key keyword category_id)
  = ((log ++ [category_call api_key keyword category_id])
     ++ [global_call api_key], inr (empty_trends, [])).
Proof.
  intros H1 He1 Hcsv H2 He2 Hts.
  eapply fetch_trends_returns; [done| |done|].
  - unfold category_trends_of. by rewrite He1, dict_get_missing.
  - unfold global_trends_of. by rewrite He2, Hts.
Qed.

(** One entry of the trending list that is no dictionary fails the whole
    call, the category half that was parsed with it: the AttributeError of
    the entry leaves as a terminal error. *)
Theorem fetch_trends_malformed_entry (d1 d2 : list (string * pyval))
    (c : gmap string (list string)) (q : pyval) (qs post : list pyval)
    (v : pyval) :
  serp w log (params_cat api_key keyword category_id) = inr d1 →
  category_trends_of d1 = Ret c →
  serp w (log ++ [category_call api_key keyword category_id])
       (params_global api_key) = inr d2 →
  dict_has "error" d2 = false →
  trending_searches d2 = (trending_entry <$> q :: qs) ++ v :: post →
  (∀ d, v ≠ PDict d) →
  run w log (fetch_trends api_key keyword category_id)
  = ((log ++ [category_call api_key keyword category_id])
     ++ [global_call api_key],
     inl (fetch_failure (AttributeError v "get"))).
Proof.
  intros H1 Hc H2 He2 Hts Hv.
  eapply (proj2 (fetch_trends_half_raises d1 H1)); [done..|].
  unfold global_trends_of. rewrite He2, Hts. simpl truthy. simpl negb.
  cbv iota. by apply (queries_raise (q :: qs)).
Qed.

End FetchMore.


Lemma fetch_trends_of_bare_answers_witness :
  run blank_world [] (fetch_trends "key" "coffee" "71")
  = (([] ++ [category_call "key" "coffee" "71"]) ++ [global_call "key"],
     inr (empty_trends, [])).
Proof.
  apply (fetch_trends_of_bare_answers "key" blank_world [] "coffee" "71"
           [] []); reflexivity.
Defined.

Lemma fetch_trends_malformed_entry_witness :
  run malformed_world [] (fetch_trends "key" "coffee" "71")
  = (([] ++ [category_call "key" "coffee" "71"]) ++ [global_call "key"],
     inl (fetch_failure (AttributeError (PStr "Winter") "get"))).
Proof.
  apply (fetch_trends_malformed_entry "key" malformed_world [] "coffee" "71"
           []
           [("trending_searches",
             PList [trending_entry (PStr "Autumn"); PStr "Winter"])]
           empty_trends (PStr "Autumn") [] [] (PStr "Winter")).
  - reflexivity.
  - reflexivity.
  - reflexivity.
  - reflexivity.
  - reflexivity.
  - done.
Defined.

(** The list of trending entries is looked for under every key, in the
    order of the payload: the first value that is a list opening with a
    dictionary that has a ['title'] is taken, whatever comes before it. *)
Theorem trending_searches_first_fit (pre post : list (string * pyval))
    (key : string) (first : list (string * pyval)) (rest : list pyval) :
  (∀ item, item ∈ pre → trending_searches [item] = []) →
  dict_has "title" first = true →
  trending_searches (pre ++ (key, PList (PDict first :: rest)) :: post)
  = PDict first :: rest.
Proof.
  intros Hpre Ht. induction pre as [|[k v] pre IH]; simpl.
  - by rewrite Ht.
  - assert (trending_searches [(k, v)] = []) as Hkv
      by (apply Hpre, list_elem_of_here).
    assert (trending_searches (pre ++ (key, PList (PDict first :: rest)) :: post)
            = PDict first :: rest) as IH'.
    { apply IH. intros item Hitem. apply Hpre.
      by apply list_elem_of_further. }
    simpl in Hkv.
    destruct v as [| | | | |[|[| | | | | |d] l]|]; try done.
    destruct (dict_has "title" d); [done|]. done.
Qed.

Lemma trending_searches_first_fit_witness :
  trending_searches
    ([("search_metadata", PDict [("status", PStr "Success")]);
      ("categories", PList [PStr "all"])]
     ++ ("trending_searches",
         PList (PDict [("title", PDict [("query", PStr "Autumn")])] :: []))
        :: [])
  = PDict [("title", PDict [("query", PStr "Autumn")])] :: [].
Proof.
  apply (trending_searches_first_fit
           [("search_metadata", PDict [("status", PStr "Success")]);
            ("categories", PList [PStr "all"])] []
           "trending_searches" [("title", PDict [("query", PStr "Autumn")])] []).
  - intros item Hitem. repeat (apply elem_of_cons in Hitem as [->|Hitem];
      [reflexivity|]). by apply elem_of_nil in Hitem.
  - reflexivity.
Defined.

(** *** full_pipeline *)

Lemma method_500 {A : Type} (w : world) (c : py A) what log :
  value_or_500 what (run w log (try_except c Exception (http_500 what))).2.
Proof.
  rewrite run_try_except. destruct (run w log c) as [log' [e|a]]; simpl;
    [by eauto|done].
Qed.

Ltac in_phases :=
  unfold phases;
  repeat first [apply list_elem_of_here | apply list_elem_of_further].

Lemma extract_keyword_500 lower keyword_prompt (w : world) video_idea log :
  value_or_500 "Failed to extract keyword: "
    (run w log (extract_keyword lower keyword_prompt video_idea)).2.
Proof. apply method_500. Qed.

Lemma generate_script_500 script_prompt (w : world) viral_angle log :
  value_or_500 "Failed to generate script: "
    (run w log (generate_script script_prompt viral_angle)).2.
Proof. apply method_500. Qed.

Lemma extract_keyword_calls lower keyword_prompt (w : world) video_idea log :
  length (run w log (extract_keyword lower keyword_prompt video_idea)).1
  = length log + 1.
Proof.
  unfold extract_keyword.
  rewrite run_try_except, run_bind, run_generate_content.
  destruct (llm w log utility_model _) as [e|text]; simpl;
    [by rewrite length_app|].
  destruct (_ || _); simpl; by rewrite length_app.
Qed.

Lemma generate_script_calls script_prompt (w : world) viral_angle log :
  (run w log (generate_script script_prompt viral_angle)).1
  = log ++ [LLMCall creative_model (script_prompt viral_angle)]
  ∧ length (run w log (generate_script script_prompt viral_angle)).1
    = length log + 1.
Proof.
  unfold generate_script.
  rewrite run_try_except, run_bind, run_generate_content.
  destruct (llm w log creative_model _) as [e|text]; simpl;
    by rewrite length_app.
Qed.

Lemma as_trends_cons trend l :
  as_trends (PStr trend :: l) = (rest ← as_trends l; Ret (trend :: rest)).
Proof. done. Qed.

Lemma as_trends_raise l v post :
  (∀ s, v ≠ PStr s) →
  as_trends ((PStr <$> l) ++ v :: post) = Raise (AttributeError v "lower").
Proof.
  intros Hv. induction l as [|s l IH].
  - simpl. destruct v; try done. by destruct (Hv s).
  - by rewrite fmap_cons, <- app_comm_cons, as_trends_cons, IH.
Qed.

Lemma as_trends_cases l :
  (∃ trends, as_trends l = Ret trends)
  ∨ (∃ v, as_trends l = Raise (AttributeError v "lower")).
Proof.
  induction l as [|v l IH]; [by left; eexists|].
  destruct v; simpl; try by right; eexists.
  destruct IH as [[trends ->]|[v ->]]; simpl; [left|right]; by eexists.
Qed.

Section Pipeline.

Variables (lower : string → string) (json_loads : string → exn + pyval).
Variables (keyword_prompt : string → string).
Variables (viral_angle_prompt : string → string → string).
Variables (script_prompt : string → string) (api_key : string).
Variables (str_of_value : pyval → string).
Variables (validate_response : FullPipelineResponse
                               → string + FullPipelineResponse).
Variables (w : world) (video_idea category_id : string).

Lemma generate_viral_angle_500 log category_trends global_trends :
  value_or_500 "Failed to generate viral angle: "
    (run w log (generate_viral_angle lower json_loads viral_angle_prompt
                  video_idea category_trends global_trends)).2.
Proof.
  unfold generate_viral_angle. case_bool_decide; [done|]. apply method_500.
Qed.

(** The run of the pipeline, phase by phase: a phase that fails ends it
    with the error of the phase, and what is raised between the phases
    leaves as a failure of the pipeline. *)
Lemma run_full_pipeline log :
  run w log (full_pipeline lower json_loads keyword_prompt viral_angle_prompt
               script_prompt api_key str_of_value validate_response
               video_idea category_id)
  = match run w log (extract_keyword lower keyword_prompt video_idea) with
    | (log1, inl e) => (log1, inl e)
    | (log1, inr keyword) =>
      match run w log1 (fetch_trends api_key keyword category_id) with
      | (log2, inl e) => (log2, inl e)
      | (log2, inr trends) =>
        match run w log2 (as_trends trends.2) with
        | (log2', inl e) =>
            (log2', inl (HTTPException 500 ("Pipeline failed: " +:+ str_exn e)))
        | (log2', inr global_trends) =>
          match run w log2' (generate_viral_angle lower json_loads
                               viral_angle_prompt video_idea trends.1
                               global_trends) with
          | (log3, inl e) => (log3, inl e)
          | (log3, inr angle) =>
            match run w log3 (generate_script script_prompt
                                (format_value str_of_value angle.1)) with
            | (log4, inl e) => (log4, inl e)
            | (log4, inr script) =>
              match validate_response
                      {| resp_original_idea := video_idea;
                         resp_keyword := keyword;
                         resp_viral_angle := angle.1;
                         resp_selected_trends := angle.2;
                         resp_script := script;
                         resp_trends_data := trends |} with
              | inl msg =>
                  (log4, inl (HTTPException 500 ("Pipeline failed: " +:+ msg)))
              | inr response => (log4, inr response)
              end
            end
          end
        end
      end
    end.
Proof.
  unfold full_pipeline. rewrite run_try_except, run_bind.
  pose proof (extract_keyword_500 lower keyword_prompt w video_idea log)
    as H1.
  destruct (run w log (extract_keyword lower keyword_prompt video_idea))
    as [log1 [e|keyword]]; [by destruct H1 as [msg ->]|].
  unfold then_run at 1. cbv beta iota. rewrite run_bind.
  pose proof (fetch_trends_terminal api_key w log1 keyword category_id)
    as (log2 & r2 & E2 & H2).
  rewrite E2. destruct r2 as [e|trends]; [by destruct H2 as [detail ->]|].
  unfold then_run at 1. cbv beta iota. rewrite run_bind.
  destruct (as_trends_cases trends.2) as [[global_trends ->]|[v ->]];
    [|done].
  unfold then_run at 1.
  change (run w log2 (Ret global_trends))
    with (log2, @inr exn (list string) global_trends).
  cbv beta iota. rewrite run_bind.
  pose proof (generate_viral_angle_500 log2 trends.1 global_trends) as H3.
  destruct (run w log2 (generate_viral_angle lower json_loads
              viral_angle_prompt video_idea trends.1 global_trends))
    as [log3 [e|angle]]; [by destruct H3 as [msg ->]|].
  unfold then_run at 1. cbv beta iota. rewrite run_bind.
  pose proof (generate_script_500 script_prompt w
                (format_value str_of_value angle.1) log3) as H4.
  destruct (run w log3 (generate_script script_prompt
              (format_value str_of_value angle.1)))
    as [log4 [e|script]]; [by destruct H4 as [msg ->]|].
  unfold then_run at 1. cbv beta iota.
  by destruct (validate_response _).
Qed.

Lemma fetch_trends_calls_500 log keyword :
  value_or_500 "Failed to fetch trends: "
    (run w log (fetch_trends api_key keyword category_id)).2.
Proof. apply method_500. Qed.

Lemma generate_viral_angle_calls log category_trends global_trends :
  length (run w log (generate_viral_angle lower json_loads viral_angle_prompt
                       video_idea category_trends global_trends)).1
  ≤ length log + 1.
Proof.
  unfold generate_viral_angle. case_bool_decide; [simpl; lia|].
  rewrite run_try_except, run_bind, run_generate_content.
  destruct (llm w log utility_model _) as [e|text]; simpl;
    [rewrite length_app; simpl; lia|].
  destruct (json_loads _) as [e|result_json]; simpl;
    [rewrite length_app; simpl; lia|].
  destruct result_json as [| | | | | |d]; simpl;
    try (rewrite length_app; simpl; lia).
  destruct (truthy (dict_get "viral_angle" PNone d)); simpl;
    [|rewrite length_app; simpl; lia].
  destruct (is_list (dict_get "selected_trends" (PList []) d)); simpl;
    rewrite length_app; simpl; lia.
Qed.

Lemma fetch_trends_calls log keyword :
  length (run w log (fetch_trends api_key keyword category_id)).1
  ≤ length log + 2.
Proof.
  unfold fetch_trends. simpl.
  destruct (serp w log (params_cat api_key keyword category_id)) as [e|d1];
    simpl; [rewrite length_app; simpl; lia|].
  pose proof (category_trends_of_leaf d1) as Hc.
  destruct (category_trends_of d1) as [c|e| |]; try done; simpl;
    [|rewrite length_app; simpl; lia].
  destruct (serp w _ (params_global api_key)) as [e|d2];
    simpl; [rewrite !length_app; simpl; lia|].
  pose proof (global_trends_of_leaf d2) as Hg.
  destruct (global_trends_of d2) as [g|e| |]; try done; simpl;
    rewrite !length_app; simpl; lia.
Qed.

(** Whatever the outside world answers, the pipeline makes at most five
    calls, and what leaves it is a response or a terminal error of status
    500 whose detail names the phase that failed. *)
Theorem full_pipeline_calls_and_outcome (log : list call) :
  length (run w log (full_pipeline lower json_loads keyword_prompt
                       viral_angle_prompt script_prompt api_key str_of_value
                       validate_response video_idea category_id)).1
  ≤ length log + 5
  ∧ value_or_phase_error
      (run w log (full_pipeline lower json_loads keyword_prompt
                    viral_angle_prompt script_prompt api_key str_of_value
                    validate_response video_idea category_id)).2.
Proof.
  assert (∀ what, what ∈ phases → ∀ (A B : Type) (r : exn + A),
            value_or_500 what r →
            ∀ e, r = inl e → value_or_phase_error (@inl exn B e)) as Hphase.
  { intros what Hw A B r Hr e ->. destruct Hr as [msg ->]. by exists what, msg. }
  assert (∀ (B : Type) msg,
            value_or_phase_error
              (@inl exn B (HTTPException 500 ("Pipeline failed: " +:+ msg))))
    as Hpipe.
  { intros B msg. exists "Pipeline failed: ", msg. split; [|done].
    in_phases. }
  rewrite run_full_pipeline.
  pose proof (extract_keyword_500 lower keyword_prompt w video_idea log)
    as H1.
  pose proof (extract_keyword_calls lower keyword_prompt w video_idea log)
    as L1.
  destruct (run w log (extract_keyword lower keyword_prompt video_idea))
    as [log1 [e|keyword]]; simpl in L1.
  { split; [simpl; lia|]. eapply (Hphase "Failed to extract keyword: ");
      [in_phases|exact H1|done]. }
  pose proof (fetch_trends_calls log1 keyword) as L2.
  pose proof (fetch_trends_calls_500 log1 keyword) as H2.
  destruct (run w log1 (fetch_trends api_key keyword category_id))
    as [log2 [e|trends]]; simpl in L2.
  { split; [simpl; lia|]. eapply (Hphase "Failed to fetch trends: ");
      [in_phases|exact H2|done]. }
  destruct (as_trends_cases trends.2) as [[global_trends ->]|[v ->]];
    [|split; [simpl; lia|apply Hpipe]].
  change (run w log2 (Ret global_trends))
    with (log2, @inr exn (list string) global_trends). cbv beta iota.
  pose proof (generate_viral_angle_calls log2 trends.1 global_trends) as L3.
  pose proof (generate_viral_angle_500 log2 trends.1 global_trends) as H3.
  destruct (run w log2 (generate_viral_angle lower json_loads
              viral_angle_prompt video_idea trends.1 global_trends))
    as [log3 [e|angle]]; simpl in L3.
  { split; [simpl; lia|]. eapply (Hphase "Failed to generate viral angle: ");
      [in_phases|exact H3|done]. }
  pose proof (generate_script_500 script_prompt w
                (format_value str_of_value angle.1) log3) as H4.
  pose proof (proj2 (generate_script_calls script_prompt w
                (format_value str_of_value angle.1) log3)) as L4.
  destruct (run w log3 (generate_script script_prompt
              (format_value str_of_value angle.1)))
    as [log4 [e|script]]; simpl in L4.
  { split; [simpl; lia|]. eapply (Hphase "Failed to generate script: ");
      [in_phases|exact H4|done]. }
  destruct (validate_response _) as [msg|response];
    (split; [simpl; lia|]); [apply Hpipe|done].
Qed.

(** A phase that fails ends the pipeline: the error of the phase leaves
    unchanged, and no phase after it makes a call. *)
Theorem full_pipeline_stops_at_failure (log : list call) :
  (∀ log1 e,
     run w log (extract_keyword lower keyword_prompt video_idea)
     = (log1, inl e) →
     run w log (full_pipeline lower json_loads keyword_prompt
                  viral_angle_prompt script_prompt api_key str_of_value
                  validate_response video_idea category_id)
     = (log1, inl e))
  ∧ (∀ log1 keyword log2 e,
       run w log (extract_keyword lower keyword_prompt video_idea)
       = (log1, inr keyword) →
       run w log1 (fetch_trends api_key keyword category_id)
       = (log2, inl e) →
       run w log (full_pipeline lower json_loads keyword_prompt
                    viral_angle_prompt script_prompt api_key str_of_value
                    validate_response video_idea category_id)
       = (log2, inl e))
  ∧ (∀ log1 keyword log2 trends global_trends log3 e,
       run w log (extract_keyword lower keyword_prompt video_idea)
       = (log1, inr keyword) →
       run w log1 (fetch_trends api_key keyword category_id)
       = (log2, inr trends) →
       as_trends trends.2 = Ret global_trends →
       run w log2 (generate_viral_angle lower json_loads viral_angle_prompt
                     video_idea trends.1 global_trends)
       = (log3, inl e) →
       run w log (full_pipeline lower json_loads keyword_prompt
                    viral_angle_prompt script_prompt api_key str_of_value
                    validate_response video_idea category_id)
       = (log3, inl e))
  ∧ (∀ log1 keyword log2 trends global_trends log3 angle log4 e,
       run w log (extract_keyword lower keyword_prompt video_idea)
       = (log1, inr keyword) →
       run w log1 (fetch_trends api_key keyword category_id)
       = (log2, inr trends) →
       as_trends trends.2 = Ret global_trends →
       run w log2 (generate_viral_angle lower json_loads viral_angle_prompt
                     video_idea trends.1 global_trends)
       = (log3, inr angle) →
       run w log3 (generate_script script_prompt
                     (format_value str_of_value angle.1))
       = (log4, inl e) →
       run w log (full_pipeline lower json_loads keyword_prompt
                    viral_angle_prompt script_prompt api_key str_of_value
                    validate_response video_idea category_id)
       = (log4, inl e)).
Proof.
  split; [|split; [|split]].
  - intros log1 e E1. by rewrite run_full_pipeline, E1.
  - intros log1 keyword log2 e E1 E2. by rewrite run_full_pipeline, E1, E2.
  - intros log1 keyword log2 trends global_trends log3 e E1 E2 Eg E3.
    rewrite run_full_pipeline, E1, E2, Eg.
    change (run w log2 (Ret global_trends))
      with (log2, @inr exn (list string) global_trends). cbv beta iota.
    by rewrite E3.
  - intros log1 keyword log2 trends global_trends log3 angle log4 e
      E1 E2 Eg E3 E4.
    rewrite run_full_pipeline, E1, E2, Eg.
    change (run w log2 (Ret global_trends))
      with (log2, @inr exn (list string) global_trends). cbv beta iota.
    by rewrite E3, E4.
Qed.

Lemma generate_viral_angle_bypass category_trends :
  section_of category_trends "rising" = [] →
  section_of category_trends "top" = [] →
  generate_viral_angle lower json_loads viral_angle_prompt video_idea
    category_trends []
  = Ret (PStr video_idea, PList []).
Proof.
  intros Hr Ht. unfold generate_viral_angle.
  assert (trend_candidates lower category_trends [] = []) as ->; [|done].
  unfold trend_candidates. by rewrite merge_sources, Hr, Ht.
Qed.

(** When the trends that were fetched are all empty, the angle phase makes
    no call and the script is asked for with the original idea: the only
    call after the two queries is the one to the creative model, with the
    script prompt of the idea. *)
Theorem full_pipeline_without_trends (log log1 log2 : list call)
    (keyword : string) (category_trends : gmap string (list string)) :
  run w log (extract_keyword lower keyword_prompt video_idea)
  = (log1, inr keyword) →
  run w log1 (fetch_trends api_key keyword category_id)
  = (log2, inr (category_trends, [])) →
  section_of category_trends "rising" = [] →
  section_of category_trends "top" = [] →
  (run w log (full_pipeline lower json_loads keyword_prompt
                viral_angle_prompt script_prompt api_key str_of_value
                validate_response video_idea category_id)).1
  = log2 ++ [LLMCall creative_model (script_prompt video_idea)].
Proof.
  intros E1 E2 Hr Ht. rewrite run_full_pipeline, E1, E2.
  change (run w log2 (as_trends (category_trends, @nil pyval).2))
    with (log2, @inr exn (list string) []). cbv beta iota.
  change ((category_trends, @nil pyval).1) with category_trends.
  rewrite (generate_viral_angle_bypass category_trends Hr Ht).
  change (run w log2 (Ret (PStr video_idea, PList [])))
    with (log2, @inr exn (pyval * pyval) (PStr video_idea, PList [])).
  cbv beta iota.
  change (format_value str_of_value (PStr video_idea, PList []).1)
    with video_idea.
  pose proof (proj1 (generate_script_calls script_prompt w video_idea log2))
    as L.
  destruct (run w log2 (generate_script script_prompt video_idea))
    as [log4 [e|script]]; simpl in L; subst log4; [done|].
  by destruct (validate_response _).
Qed.

(** A global trend that is no string (the query of a trending entry may be
    a number) stops the pipeline before the angle phase: the AttributeError
    of the merge leaves as a failure of the pipeline, and no model is
    called after the two queries. *)
Theorem full_pipeline_trend_that_is_no_text (log log1 log2 : list call)
    (keyword : string) (category_trends : gmap string (list string))
    (l : list string) (v : pyval) (post : list pyval) :
  run w log (extract_keyword lower keyword_prompt video_idea)
  = (log1, inr keyword) →
  run w log1 (fetch_trends api_key keyword category_id)
  = (log2, inr (category_trends, (PStr <$> l) ++ v :: post)) →
  (∀ s, v ≠ PStr s) →
  run w log (full_pipeline lower json_loads keyword_prompt
               viral_angle_prompt script_prompt api_key str_of_value
               validate_response video_idea category_id)
  = (log2,
     inl (HTTPException 500
            ("Pipeline failed: " +:+ str_exn (AttributeError v "lower")))).
Proof.
  intros E1 E2 Hv. rewrite run_full_pipeline, E1, E2. simpl snd.
  by rewrite (as_trends_raise l v post Hv).
Qed.

End Pipeline.

Lemma full_pipeline_stops_at_failure_witness :
  run blank_world []
    (full_pipeline Str.lower (λ _, inl (ValueError "not JSON"))
       (λ idea, idea) (λ idea trends, idea +:+ trends) (λ angle, angle)
       "key" (λ _, "") inr "an idea" "71")
  = ([LLMCall utility_model "an idea"],
     inl (HTTPException 500
            "Failed to extract keyword: Invalid keyword returned")).
Proof.
  apply (proj1 (full_pipeline_stops_at_failure
                  Str.lower (λ _, inl (ValueError "not JSON"))
                  (λ idea, idea) (λ idea trends, idea +:+ trends)
                  (λ angle, angle) "key" (λ _, "") inr
                  blank_world "an idea" "71" [])).
  vm_compute. reflexivity.
Defined.

Lemma full_pipeline_without_trends_witness :
  (run quiet_world []
     (full_pipeline Str.lower (λ _, inl (ValueError "not JSON"))
        (λ idea, idea) (λ idea trends, idea +:+ trends) (λ angle, angle)
        "key" (λ _, "") inr "an idea" "71")).1
  = [LLMCall utility_model "an idea"; category_call "key" "coffee" "71";
     global_call "key"]
    ++ [LLMCall creative_model "an idea"].
Proof.
  apply (full_pipeline_without_trends
           Str.lower (λ _, inl (ValueError "not JSON"))
           (λ idea, idea) (λ idea trends, idea +:+ trends)
           (λ angle, angle) "key" (λ _, "") inr
           quiet_world "an idea" "71" []
           [LLMCall utility_model "an idea"] _ "coffee" empty_trends).
  - vm_compute. reflexivity.
  - vm_compute. reflexivity.
  - reflexivity.
  - reflexivity.
Defined.

Lemma full_pipeline_trend_that_is_no_text_witness :
  run numeric_world []
    (full_pipeline Str.lower (λ _, inl (ValueError "not JSON"))
       (λ idea, idea) (λ idea trends, idea +:+ trends) (λ angle, angle)
       "key" (λ _, "") inr "an idea" "71")
  = ([LLMCall utility_model "an idea"; category_call "key" "coffee" "71";
      global_call "key"],
     inl (HTTPException 500
            ("Pipeline failed: "
             +:+ str_exn (AttributeError (PInt 7) "lower")))).
Proof.
  apply (full_pipeline_trend_that_is_no_text
           Str.lower (λ _, inl (ValueError "not JSON"))
           (λ idea, idea) (λ idea trends, idea +:+ trends)
           (λ angle, angle) "key" (λ _, "") inr
           numeric_world "an idea" "71" []
           [LLMCall utility_model "an idea"] _ "coffee" empty_trends
           [] (PInt 7) []).
  - vm_compute. reflexivity.
  - vm_compute. reflexivity.
  - done.
Defined.

(** *** Trimming *)

Lemma rev_app_spec s acc : String.rev_app s acc = String.rev s +:+ acc.
Proof.
  revert acc. induction s as [|c s IH]; intros acc; [done|].
  unfold String.rev. simpl. rewrite (IH (String c acc)), (IH (String c "")).
  by rewrite append_assoc.
Qed.

Lemma rev_cons c s : String.rev (String c s) = String.rev s +:+ String c "".
Proof. unfold String.rev at 1. simpl. apply rev_app_spec. Qed.

Lemma rev_snoc s c : String.rev (s +:+ String c "") = String c (String.rev s).
Proof.
  induction s as [|c' s IH]; [done|].
  by rewrite append_cons, !rev_cons, IH.
Qed.

Lemma rev_involutive s : String.rev (String.rev s) = s.
Proof.
  induction s as [|c s IH]; [done|]. by rewrite rev_cons, rev_snoc, IH.
Qed.

Lemma lstrip_idempotent s : Str.lstrip (Str.lstrip s) = Str.lstrip s.
Proof.
  induction s as [|c s IH]; [done|]. simpl.
  destruct (Str.is_space c) eqn:Hc; [done|]. simpl. by rewrite Hc.
Qed.

(** Trimming the left of a text that ends with a character that is no
    whitespace leaves a text that ends with it. *)
Lemma lstrip_snoc t c :
  Str.is_space c = false →
  ∃ t', Str.lstrip (t +:+ String c "") = t' +:+ String c "".
Proof.
  intros Hc. induction t as [|c' t IH].
  - exists "". simpl. by rewrite Hc.
  - rewrite append_cons. simpl. destruct (Str.is_space c'); [done|].
    by exists (String c' t).
Qed.

Lemma strip_idempotent s : Str.strip (Str.strip s) = Str.strip s.
Proof.
  unfold Str.strip.
  assert (Str.lstrip (Str.rstrip (Str.lstrip s)) = Str.rstrip (Str.lstrip s))
    as ->.
  { destruct (Str.lstrip s) as [|c y] eqn:E; [done|].
    assert (Str.is_space c = false) as Hc.
    { pose proof (lstrip_idempotent s) as Hi. rewrite E in Hi. simpl in Hi.
      destruct (Str.is_space c) eqn:Hc; [|done].
      assert (String.length (Str.lstrip y) ≤ String.length y) as Hle.
      { clear. induction y as [|c' y IH]; simpl; [done|].
        destruct (Str.is_space c'); simpl; lia. }
      rewrite Hi in Hle. simpl in Hle. lia. }
    unfold Str.rstrip. rewrite rev_cons.
    destruct (lstrip_snoc (String.rev y) c Hc) as [t' ->].
    rewrite rev_snoc. simpl. by rewrite Hc. }
  unfold Str.rstrip. by rewrite rev_involutive, lstrip_idempotent.
Qed.

(** Every topic the parser returns is trimmed: trimming it again changes
    nothing, so it neither starts nor ends with whitespace. *)
Theorem parse_topics_trimmed (l : list string)
    (trends : gmap string (list string)) (section : string)
    (topics : list string) (topic : string) :
  _parse_related_topics_csv (lines l) = Ret trends →
  trends !! section = Some topics →
  topic ∈ topics →
  Str.strip topic = topic.
Proof.
  destruct (for_each_lines l [] [] None) as (a & b & cs & E & _ & F);
    [by left|].
  rewrite parse_lines_unfold. unfold empty_trends. rewrite E. simpl.
  intros [= <-] Hsec Hin. apply Forall_app in F as [Fa Fb].
  assert (from_rows l topic) as (_ & row & _ & _ & ->).
  { destruct (decide (section = "top")) as [->|Hnt].
    - rewrite lookup_insert_eq in Hsec. injection Hsec as <-.
      by apply (proj1 (Forall_forall _ _) Fa).
    - rewrite lookup_insert_ne in Hsec by done.
      destruct (decide (section = "rising")) as [->|Hnr].
      + rewrite lookup_singleton_eq in Hsec. injection Hsec as <-.
        by apply (proj1 (Forall_forall _ _) Fb).
      + by rewrite lookup_singleton_ne in Hsec. }
  apply strip_idempotent.
Qed.

Lemma parse_topics_trimmed_witness : Str.strip "Cold brew" = "Cold brew".
Proof.
  apply (parse_topics_trimmed ["top"; "  Cold brew  ,100"]
           {[ "top" := ["Cold brew"]; "rising" := [] ]} "top" ["Cold brew"]).
  - vm_compute. reflexivity.
  - reflexivity.
  - apply list_elem_of_here.
Defined.
